(** * AiCupid backend: turn lifecycle, activity detection and event dispatch

    A shallow embedding of the TypeScript sources

      - [src/db.ts]                (module [Db])
      - [src/gemini.ts]            (module [Gemini])
      - [src/events/engine.ts], [src/events/quiz-rule.ts],
        [src/events/quiz-agent.ts] (module [Events])
      - [src/ws-handler.ts]        (module [WsHandler])

    together with the part of the JavaScript runtime these files lean on
    (strings as UTF-16 code units, [String.prototype.trim], the two regular
    expressions of [generateQuiz], [JSON.parse], settled promises). *)

From Stdlib Require Import String Ascii DecimalString Strings.Byte.
From Stdlib Require Import List ZArith NArith Bool Lia.
From Stdlib Require Import Permutation.
From Stdlib Require Import Reals Lra.
Import ListNotations.

Set Implicit Arguments.
#[local] Set Warnings "-register-all".

(* ================================================================== *)
(** ** The JavaScript runtime                                          *)
(* ================================================================== *)

Module JS.

(** A JavaScript string is a sequence of UTF-16 code units. *)
Definition str := list N.

(** A Rocq string literal read as a JavaScript string (one code unit per
    character; the literals used below are ASCII). *)
Definition lit (s : string) : str :=
  map N_of_ascii (list_ascii_of_string s).

Fixpoint eqb (a b : str) : bool :=
  match a, b with
  | [], [] => true
  | x :: a', y :: b' => N.eqb x y && eqb a' b'
  | _, _ => false
  end.

(** [a.startsWith(p)]: the rest of [a] after the prefix [p], if any. *)
Fixpoint strip_prefix (p a : str) : option str :=
  match p, a with
  | [], _ => Some a
  | x :: p', y :: a' => if N.eqb x y then strip_prefix p' a' else None
  | _ :: _, [] => None
  end.

(** WhiteSpace and LineTerminator code points of ECMAScript: what
    [String.prototype.trim] strips and what [\s] matches. *)
Definition is_space (c : N) : bool :=
  ((9 <=? c) && (c <=? 13) || (c =? 32) || (c =? 160) || (c =? 5760)
   || (8192 <=? c) && (c <=? 8202) || (c =? 8232) || (c =? 8233)
   || (c =? 8239) || (c =? 8287) || (c =? 12288) || (c =? 65279))%N.

Fixpoint trimStart (s : str) : str :=
  match s with
  | c :: s' => if is_space c then trimStart s' else s
  | [] => []
  end.

Definition trimEnd (s : str) : str := rev (trimStart (rev s)).

Definition trim (s : str) : str := trimEnd (trimStart s).

(** ASCII case folding, as a regular expression with the [i] flag (and no
    [u] flag) compares Latin letters: a code unit above 127 never folds to
    an ASCII letter. *)
Definition upper_ascii (c : N) : N :=
  if ((97 <=? c) && (c <=? 122))%N then (c - 32)%N else c.

Fixpoint strip_prefix_ci (p a : str) : option str :=
  match p, a with
  | [], _ => Some a
  | x :: p', y :: a' =>
      if N.eqb (upper_ascii x) (upper_ascii y) then strip_prefix_ci p' a' else None
  | _ :: _, [] => None
  end.

(** [String.prototype.toUpperCase], on the code units whose image can be
    one of the letters [Y], [E], [S]: the ASCII lower-case letters and
    U+017F (long s, which upper-cases to [S]).  Other code units are left
    as they are; the only use below compares the result with ["YES"]. *)
Definition toUpperCase (s : str) : str :=
  map (fun c => if (c =? 383)%N then 83%N else upper_ascii c) s.

Definition join (sep : str) (l : list str) : str :=
  match l with
  | [] => []
  | x :: l' => x ++ flat_map (fun y => sep ++ y) l'
  end.

(** [Array.prototype.slice(0, n)] and [slice(-n)] for [n >= 0]. *)
Definition slice_to {A} (n : nat) (l : list A) : list A := firstn n l.
Definition slice_last {A} (n : nat) (l : list A) : list A :=
  skipn (length l - n) l.

(** The state a promise settles in. *)
Inductive settled (A : Type) : Type :=
| Fulfilled (value : A)
| Rejected (reason : str).
Arguments Fulfilled {A} value.
Arguments Rejected {A} reason.

(** [await p; k]: a rejection propagates out of the async function. *)
Definition await {A B} (p : settled A) (k : A -> settled B) : settled B :=
  match p with
  | Fulfilled v => k v
  | Rejected r => Rejected r
  end.

End JS.

Notation "'await!' x <- p ; k" := (JS.await p (fun x => k))
  (at level 10, x name, p at level 100, k at level 200).

(* ================================================================== *)
(** ** JSON values and [JSON.parse]                                    *)
(* ================================================================== *)

Module Json.
Import JS.

(** What [JSON.parse] can return.  A number is kept as its lexeme. *)
Inductive value : Type :=
| JNull
| JBool (b : bool)
| JNumber (lexeme : str)
| JString (s : str)
| JArray (elements : list value)
| JObject (members : list (str * value)).

(** [CreateDataProperty]: a repeated key overwrites the earlier value and
    keeps its place.  (The enumeration order of integer-like keys is not
    modelled.) *)
Fixpoint set_member (k : str) (v : value) (ms : list (str * value))
  : list (str * value) :=
  match ms with
  | [] => [(k, v)]
  | (k', v') :: ms' =>
      if eqb k k' then (k, v) :: ms' else (k', v') :: set_member k v ms'
  end.

Fixpoint get_member (k : str) (ms : list (str * value)) : option value :=
  match ms with
  | [] => None
  | (k', v) :: ms' => if eqb k k' then Some v else get_member k ms'
  end.

(** *** The parser: one pass over the code units

    The lexer mode is [lex], the parser position is [expect], the open
    containers are a stack of [frame]s. *)

Inductive frame : Type :=
| FArray (done : list value)                      (* reversed *)
| FObject (done : list (str * value)) (key : option str).

Inductive numstate : Type :=
| NMinus | NZero | NInt | NDot | NFrac | NExp | NExpSign | NExpDigits.

Definition num_accepting (n : numstate) : bool :=
  match n with
  | NZero | NInt | NFrac | NExpDigits => true
  | _ => false
  end.

Definition is_digit (c : N) : bool := ((48 <=? c) && (c <=? 57))%N.

Definition num_step (n : numstate) (c : N) : option numstate :=
  let e := ((c =? 101) || (c =? 69))%N in
  match n with
  | NMinus => if (c =? 48)%N then Some NZero
              else if is_digit c then Some NInt else None
  | NZero => if (c =? 46)%N then Some NDot
             else if e then Some NExp else None
  | NInt => if is_digit c then Some NInt
            else if (c =? 46)%N then Some NDot
            else if e then Some NExp else None
  | NDot => if is_digit c then Some NFrac else None
  | NFrac => if is_digit c then Some NFrac
             else if e then Some NExp else None
  | NExp => if ((c =? 43) || (c =? 45))%N then Some NExpSign
            else if is_digit c then Some NExpDigits else None
  | NExpSign => if is_digit c then Some NExpDigits else None
  | NExpDigits => if is_digit c then Some NExpDigits else None
  end.

Inductive lex : Type :=
| LIdle
| LString (acc : str)                              (* reversed *)
| LEscape (acc : str)
| LUnicode (acc : str) (hex : list N)
| LNumber (n : numstate) (acc : str)               (* reversed *)
| LLiteral (rest : str) (v : value).

Inductive expect : Type :=
| EValue            (* a value must start here *)
| EValueOrEnd       (* just after an opening bracket *)
| EKeyOrEnd         (* just after an opening brace *)
| EKey              (* after a comma inside an object *)
| EColon            (* after a member's key *)
| ECommaOrEnd       (* after a value inside a container *)
| EDone (v : value).

Record pstate : Type := {
  mode : lex;
  pos : expect;
  stack : list frame
}.

Definition hex_value (c : N) : option N :=
  if is_digit c then Some (c - 48)%N
  else if ((97 <=? c) && (c <=? 102))%N then Some (c - 87)%N
  else if ((65 <=? c) && (c <=? 70))%N then Some (c - 55)%N
  else None.

Definition escape_value (c : N) : option N :=
  if (c =? 34)%N then Some 34%N            (* escaped quotation mark *)
  else if (c =? 92)%N then Some 92%N       (* escaped backslash *)
  else if (c =? 47)%N then Some 47%N       (* escaped solidus *)
  else if (c =? 98)%N then Some 8%N        (* backspace *)
  else if (c =? 102)%N then Some 12%N      (* form feed *)
  else if (c =? 110)%N then Some 10%N      (* line feed *)
  else if (c =? 114)%N then Some 13%N      (* carriage return *)
  else if (c =? 116)%N then Some 9%N       (* tab *)
  else None.

Definition starts_value (e : expect) : bool :=
  match e with EValue | EValueOrEnd => true | _ => false end.

Definition starts_key (e : expect) : bool :=
  match e with EKeyOrEnd | EKey => true | _ => false end.

(** A value is complete: it is the result, an array element, or the value
    of the pending key. *)
Definition finish_value (v : value) (st : list frame) : option pstate :=
  match st with
  | [] => Some {| mode := LIdle; pos := EDone v; stack := [] |}
  | FArray done :: st' =>
      Some {| mode := LIdle; pos := ECommaOrEnd; stack := FArray (v :: done) :: st' |}
  | FObject done (Some k) :: st' =>
      Some {| mode := LIdle; pos := ECommaOrEnd;
              stack := FObject (set_member k v done) None :: st' |}
  | FObject _ None :: _ => None
  end.

(** A string is complete: a key or a value, by position. *)
Definition finish_string (s : str) (e : expect) (st : list frame) : option pstate :=
  if starts_value e then finish_value (JString s) st
  else if starts_key e then
    match st with
    | FObject done None :: st' =>
        Some {| mode := LIdle; pos := EColon; stack := FObject done (Some s) :: st' |}
    | _ => None
    end
  else None.

(** One code unit between tokens. *)
Definition idle_step (e : expect) (st : list frame) (c : N) : option pstate :=
  let here := {| mode := LIdle; pos := e; stack := st |} in
  if ((c =? 9) || (c =? 10) || (c =? 13) || (c =? 32))%N then Some here
  else if (c =? 34)%N then                                  (* quotation mark *)
    if starts_value e || starts_key e
    then Some {| mode := LString []; pos := e; stack := st |} else None
  else if (c =? 91)%N then                                  (* left bracket *)
    if starts_value e
    then Some {| mode := LIdle; pos := EValueOrEnd; stack := FArray [] :: st |}
    else None
  else if (c =? 123)%N then                                 (* left brace *)
    if starts_value e
    then Some {| mode := LIdle; pos := EKeyOrEnd; stack := FObject [] None :: st |}
    else None
  else if (c =? 93)%N then                                  (* right bracket *)
    match e, st with
    | EValueOrEnd, FArray done :: st'
    | ECommaOrEnd, FArray done :: st' => finish_value (JArray (rev done)) st'
    | _, _ => None
    end
  else if (c =? 125)%N then                                 (* right brace *)
    match e, st with
    | EKeyOrEnd, FObject done None :: st'
    | ECommaOrEnd, FObject done None :: st' => finish_value (JObject done) st'
    | _, _ => None
    end
  else if (c =? 44)%N then                                  (* comma *)
    match e, st with
    | ECommaOrEnd, FArray _ :: _ => Some {| mode := LIdle; pos := EValue; stack := st |}
    | ECommaOrEnd, FObject _ None :: _ => Some {| mode := LIdle; pos := EKey; stack := st |}
    | _, _ => None
    end
  else if (c =? 58)%N then                                  (* colon *)
    match e with
    | EColon => Some {| mode := LIdle; pos := EValue; stack := st |}
    | _ => None
    end
  else if negb (starts_value e) then None
  else if (c =? 45)%N then Some {| mode := LNumber NMinus [c]; pos := e; stack := st |}
  else if (c =? 48)%N then Some {| mode := LNumber NZero [c]; pos := e; stack := st |}
  else if is_digit c then Some {| mode := LNumber NInt [c]; pos := e; stack := st |}
  else if (c =? 110)%N
    then Some {| mode := LLiteral (lit "ull") JNull; pos := e; stack := st |}
  else if (c =? 116)%N
    then Some {| mode := LLiteral (lit "rue") (JBool true); pos := e; stack := st |}
  else if (c =? 102)%N
    then Some {| mode := LLiteral (lit "alse") (JBool false); pos := e; stack := st |}
  else None.

Definition step (p : pstate) (c : N) : option pstate :=
  let e := pos p in
  let st := stack p in
  match mode p with
  | LIdle => idle_step e st c
  | LString acc =>
      if (c =? 34)%N then finish_string (rev acc) e st
      else if (c =? 92)%N then Some {| mode := LEscape acc; pos := e; stack := st |}
      else if (c <? 32)%N then None
      else Some {| mode := LString (c :: acc); pos := e; stack := st |}
  | LEscape acc =>
      if (c =? 117)%N then Some {| mode := LUnicode acc []; pos := e; stack := st |}
      else match escape_value c with
           | Some u => Some {| mode := LString (u :: acc); pos := e; stack := st |}
           | None => None
           end
  | LUnicode acc hex =>
      match hex_value c with
      | None => None
      | Some h =>
          match hex with
          | [h1; h2; h3] =>
              let u := (((h1 * 16 + h2) * 16 + h3) * 16 + h)%N in
              Some {| mode := LString (u :: acc); pos := e; stack := st |}
          | _ => Some {| mode := LUnicode acc (hex ++ [h]); pos := e; stack := st |}
          end
      end
  | LNumber n acc =>
      match num_step n c with
      | Some n' => Some {| mode := LNumber n' (c :: acc); pos := e; stack := st |}
      | None =>
          if num_accepting n then
            match finish_value (JNumber (rev acc)) st with
            | Some p' => idle_step (pos p') (stack p') c
            | None => None
            end
          else None
      end
  | LLiteral rest v =>
      match rest with
      | [] => None
      | r :: rest' =>
          if (c =? r)%N then
            match rest' with
            | [] => finish_value v st
            | _ => Some {| mode := LLiteral rest' v; pos := e; stack := st |}
            end
          else None
      end
  end.

Fixpoint run (p : pstate) (s : str) : option pstate :=
  match s with
  | [] => Some p
  | c :: s' =>
      match step p c with
      | Some p' => run p' s'
      | None => None
      end
  end.

(** End of input: a number still being read ends here; the text must
    then be exactly one value. *)
Definition finish (p : pstate) : option value :=
  let closed :=
    match mode p with
    | LIdle => Some p
    | LNumber n acc =>
        if num_accepting n then finish_value (JNumber (rev acc)) (stack p) else None
    | _ => None
    end in
  match closed with
  | Some {| mode := LIdle; pos := EDone v; stack := [] |} => Some v
  | _ => None
  end.

(** [JSON.parse(text)]: [None] stands for the [SyntaxError] it throws. *)
Definition parse (text : str) : option value :=
  match run {| mode := LIdle; pos := EValue; stack := [] |} text with
  | Some p => finish p
  | None => None
  end.

(** The numeric value of a number lexeme is zero: every digit of its
    mantissa is [0]. *)
Fixpoint mantissa_zero (lexeme : str) : bool :=
  match lexeme with
  | [] => true
  | c :: l =>
      if ((c =? 101) || (c =? 69))%N then true
      else if is_digit c then (c =? 48)%N && mantissa_zero l
      else mantissa_zero l
  end.

(** The outcome of evaluating [v.length === 0] on a parsed value:
    [None] is the [TypeError] of reading a property of [null]; an array
    and a string have a length; an object has one only as an own member
    named [length]; a number and a boolean have none ([undefined]). *)
Definition length_is_zero (v : value) : option bool :=
  match v with
  | JNull => None
  | JArray l => Some (Nat.eqb (length l) 0)
  | JString s => Some (Nat.eqb (length s) 0)
  | JObject ms =>
      match get_member (lit "length") ms with
      | Some (JNumber lexeme) => Some (mantissa_zero lexeme)
      | _ => Some false
      end
  | JBool _ | JNumber _ => Some false
  end.

End Json.

(* ================================================================== *)
(** ** [src/config.ts] and [src/types.ts]                              *)
(* ================================================================== *)

Module Config.

Definition MODELS_TEXT : JS.str := JS.lit "gemini-2.0-flash".

(** The [QUIZ] settings. *)
Definition TRIGGER_EVERY_N_MESSAGES : Z := 5.
Definition HISTORY_WINDOW : nat := 20.
Definition PROMPT_HISTORY_LIMIT : nat := 12.

Definition quote : JS.str := [34%N].
Definition newline : JS.str := [10%N].

(** [QUIZ.GENERATION_PROMPT(conversationText)]. *)
Definition GENERATION_PROMPT (conversationText : JS.str) : JS.str :=
  let q := quote in
  JS.lit "Based on this conversation, create 1-2 trivia quiz questions about topics that were discussed."
  ++ newline ++ JS.lit "Return ONLY a JSON array (no markdown):" ++ newline
  ++ JS.lit "[{" ++ q ++ JS.lit "id" ++ q ++ JS.lit ":" ++ q ++ JS.lit "q1" ++ q
  ++ JS.lit "," ++ q ++ JS.lit "question" ++ q ++ JS.lit ":" ++ q ++ JS.lit "..." ++ q
  ++ JS.lit "," ++ q ++ JS.lit "answers" ++ q ++ JS.lit ":["
  ++ q ++ JS.lit "A" ++ q ++ JS.lit "," ++ q ++ JS.lit "B" ++ q ++ JS.lit ","
  ++ q ++ JS.lit "C" ++ q ++ JS.lit "," ++ q ++ JS.lit "D" ++ q ++ JS.lit "],"
  ++ q ++ JS.lit "correctIndex" ++ q ++ JS.lit ":0,"
  ++ q ++ JS.lit "timeLimit" ++ q ++ JS.lit ":20}]" ++ newline
  ++ newline ++ JS.lit "Conversation:" ++ newline ++ conversationText.

End Config.

Module Types.

Inductive Role : Type := user | assistant.

Definition Role_eqb (a b : Role) : bool :=
  match a, b with
  | user, user | assistant, assistant => true
  | _, _ => false
  end.

Record Message : Type := {
  role : Role;
  content : JS.str;
  timestamp : Z
}.

End Types.

(* ================================================================== *)
(** ** [src/db.ts]: the SQLite store                                   *)
(* ================================================================== *)

Module Db.
Import Types.

Record session_row : Type := {
  s_id : JS.str;
  s_persona_id : JS.str;
  s_created_at : Z
}.

(** A row of [messages].  The [id] column (AUTOINCREMENT) is the position
    of the row in the table: rows are kept in insertion order and never
    deleted. *)
Record message_row : Type := {
  m_session_id : JS.str;
  m_role : Role;
  m_content : JS.str;
  m_timestamp : Z
}.

Record quiz_row : Type := {
  q_session_id : JS.str;
  q_questions : Json.value;        (* the value that is stringified *)
  q_triggered_at : Z
}.

Record t : Type := {
  sessions : list session_row;
  messages : list message_row;
  quizzes : list quiz_row
}.

Definition empty : t := {| sessions := []; messages := []; quizzes := [] |}.

Definition has_session (db : t) (id : JS.str) : bool :=
  existsb (fun s => JS.eqb (s_id s) id) (sessions db).

(** [createSession(id, personaId)]; [now] is the reading of [Date.now()].
    [None] is the error the statement throws: [id] is the primary key. *)
Definition createSession (db : t) (id personaId : JS.str) (now : Z) : option t :=
  if has_session db id then None
  else Some {| sessions := sessions db ++
                 [{| s_id := id; s_persona_id := personaId; s_created_at := now |}];
               messages := messages db;
               quizzes := quizzes db |}.

(** [addMessage(sessionId, role, content)].  [None] is the error thrown
    when [session_id] references no session (the column is a foreign key
    and better-sqlite3 enforces foreign keys). *)
Definition addMessage (db : t) (sessionId : JS.str) (r : Role)
    (c : JS.str) (now : Z) : option t :=
  if has_session db sessionId then
    Some {| sessions := sessions db;
            messages := messages db ++
              [{| m_session_id := sessionId; m_role := r;
                  m_content := c; m_timestamp := now |}];
            quizzes := quizzes db |}
  else None.

(** [ORDER BY timestamp DESC] over rows met in table order.  With a
    [LIMIT] SQLite sorts on the key (timestamp descending, then the order
    in which the scan met the rows), so rows of equal timestamp stay in
    insertion order. *)
Fixpoint insert_desc (r : message_row) (sorted : list message_row)
  : list message_row :=
  match sorted with
  | [] => [r]
  | x :: rest =>
      if (m_timestamp x <? m_timestamp r)%Z then r :: x :: rest
      else x :: insert_desc r rest
  end.

Definition order_by_timestamp_desc (rows : list message_row) : list message_row :=
  fold_left (fun sorted r => insert_desc r sorted) rows [].

Definition of_session (sessionId : JS.str) (rows : list message_row)
  : list message_row :=
  filter (fun r => JS.eqb (m_session_id r) sessionId) rows.

Definition to_Message (r : message_row) : Message :=
  {| role := m_role r; content := m_content r; timestamp := m_timestamp r |}.

(** [getMessages(sessionId, limit)]: SELECT role, content, timestamp FROM
    messages WHERE session_id = ? ORDER BY timestamp DESC LIMIT ?. *)
Definition getMessages (db : t) (sessionId : JS.str) (limit : nat) : list Message :=
  map to_Message
    (firstn limit (order_by_timestamp_desc (of_session sessionId (messages db)))).

(** [getUserMessageCount(sessionId)]: SELECT COUNT( * ) FROM messages
    WHERE session_id = ? AND role = 'user'. *)
Definition getUserMessageCount (db : t) (sessionId : JS.str) : Z :=
  Z.of_nat (length (filter
    (fun r => JS.eqb (m_session_id r) sessionId && Role_eqb (m_role r) user)
    (messages db))).

(** [saveQuiz(sessionId, questions)]. *)
Definition saveQuiz (db : t) (sessionId : JS.str) (questions : Json.value)
    (now : Z) : option t :=
  if has_session db sessionId then
    Some {| sessions := sessions db;
            messages := messages db;
            quizzes := quizzes db ++
              [{| q_session_id := sessionId; q_questions := questions;
                  q_triggered_at := now |}] |}
  else None.

End Db.

(* ================================================================== *)
(** ** [src/gemini.ts]: quiz generation                                *)
(* ================================================================== *)

Module Gemini.
Import JS Types.

(** A call of [ai.models.generateContent]: the model and the text of the
    single user part.  The provider answers with a promise of a response
    whose [text] may be undefined. *)
Record request : Type := { model : str; text : str }.

Definition GenAI : Type := request -> settled (option str).

Definition fence : str := lit "```".

(** [s.replace(/^```(?:json)?\s*/i, empty)]: an opening fence is dropped. *)
Definition strip_open_fence (s : str) : str :=
  match strip_prefix fence s with
  | None => s
  | Some r =>
      trimStart (match strip_prefix_ci (lit "json") r with
                 | Some r' => r'
                 | None => r
                 end)
  end.

(** [/```\s*$/] matches at this position: a fence, then only white space
    up to the end of the string. *)
Definition closes_here (s : str) : bool :=
  match strip_prefix fence s with
  | Some r => forallb is_space r
  | None => false
  end.

(** [s.replace(/```\s*$/, empty)]: the leftmost match is removed. *)
Fixpoint strip_close_fence (s : str) : str :=
  if closes_here s then []
  else match s with
       | [] => []
       | c :: s' => c :: strip_close_fence s'
       end.

Definition clean (raw : str) : str :=
  trim (strip_close_fence (strip_open_fence raw)).

Definition speaker (m : Message) : str :=
  (match role m with user => lit "Guest" | assistant => lit "MC" end)
  ++ lit ": " ++ content m.

Definition conversationText (history : list Message) : str :=
  join Config.newline
    (map speaker (slice_to Config.PROMPT_HISTORY_LIMIT (rev history))).

(** The text handed to [JSON.parse], from the [text] of the response. *)
Definition cleaned (result : option str) : str :=
  clean (match result with Some t => trim t | None => [] end).

(** [generateQuiz(history)].  The value returned is whatever
    [JSON.parse] yields: the cast to [QuizQuestion[]] checks nothing. *)
Definition generateQuiz (ai : GenAI) (history : list Message)
  : settled Json.value :=
  await! result <- ai {| model := Config.MODELS_TEXT;
                         text := Config.GENERATION_PROMPT (conversationText history) |};
  let raw := match result with Some t => trim t | None => [] end in
  match Json.parse (clean raw) with
  | Some v => Fulfilled v
  | None => Fulfilled (Json.JArray [])
  end.

End Gemini.

(* ================================================================== *)
(** ** [src/events]: the event engine and its triggers                 *)
(* ================================================================== *)

Module Events.
Import JS Types.

Record TurnContext : Type := {
  sessionId : str;
  userMessage : str;
  aiMessage : str;
  messageCount : Z;
  history : list Message
}.

(** The [MCEvent] union has one member. *)
Inductive MCEvent : Type :=
| quiz (payload : Json.value).

(** [EventTrigger]: [onTurn] returns a promise; what is kept of it is the
    state it settles in. *)
Record EventTrigger : Type := {
  name : str;
  onTurn : TurnContext -> settled (option MCEvent)
}.

(** *** [engine.ts] *)

Record EventEngine : Type := { triggers : list EventTrigger }.

Definition new_EventEngine : EventEngine := {| triggers := [] |}.

Definition register (e : EventEngine) (t : EventTrigger) : EventEngine :=
  {| triggers := triggers e ++ [t] |}.

(** [for (let i = start; i < start + count; i++) body]. *)
Fixpoint for_loop {S : Type} (count i : nat) (body : nat -> S -> S) (s : S) : S :=
  match count with
  | O => s
  | Datatypes.S count' => for_loop count' (Datatypes.S i) body (body i s)
  end.

(** [processTurn(ctx)]: [Promise.allSettled] never rejects and keeps the
    order of the promises it was given. *)
Definition processTurn (e : EventEngine) (ctx : TurnContext)
  : settled (list MCEvent) :=
  let results := map (fun t => onTurn t ctx) (triggers e) in
  let events :=
    for_loop (length results) 0
      (fun i events =>
         match nth_error results i with
         | Some (Fulfilled (Some v)) => events ++ [v]
         | _ => events
         end) [] in
  Fulfilled events.

(** What one trigger contributes to a turn, and whether it failed. *)
Definition fired (ctx : TurnContext) (t : EventTrigger) : list MCEvent :=
  match onTurn t ctx with
  | Fulfilled (Some v) => [v]
  | _ => []
  end.


(** *** [quiz-rule.ts] *)

Definition TypeError : str := lit "TypeError".

(** The tail shared by both triggers:
    [if (questions.length === 0) return null; return quiz]. *)
Definition emit (questions : Json.value) : settled (option MCEvent) :=
  match Json.length_is_zero questions with
  | None => Rejected TypeError
  | Some true => Fulfilled None
  | Some false => Fulfilled (Some (quiz questions))
  end.

Definition QuizRule_onTurn (ai : Gemini.GenAI) (ctx : TurnContext)
  : settled (option MCEvent) :=
  if (messageCount ctx <=? 0)%Z
     || negb (Z.rem (messageCount ctx) Config.TRIGGER_EVERY_N_MESSAGES =? 0)%Z
  then Fulfilled None
  else
    await! questions <- Gemini.generateQuiz ai (history ctx);
    emit questions.

Definition QuizRuleTrigger (ai : Gemini.GenAI) : EventTrigger :=
  {| name := lit "quiz-rule"; onTurn := QuizRule_onTurn ai |}.

(** *** [quiz-agent.ts] *)

(** A count printed in a template literal. *)
Definition show_count (n : Z) : str :=
  lit (DecimalString.NilZero.string_of_int (Z.to_int n)).

Definition buildDecisionPrompt (ctx : TurnContext) : str :=
  let nl := Config.newline in
  let recent := join nl (map Gemini.speaker (slice_last 6 (history ctx))) in
  lit "You are an event coordinator for a live AI MC show." ++ nl
  ++ lit "Decide whether NOW is a good time to run a trivia quiz for the audience." ++ nl
  ++ nl ++ lit "Rules:" ++ nl
  ++ lit "- At least 4 user messages must have occurred (current count: "
  ++ show_count (messageCount ctx) ++ lit ")" ++ nl
  ++ lit "- The conversation must contain interesting facts or topics worth quizzing on" ++ nl
  ++ lit "- Don't trigger if the conversation is purely casual/emotional with no learnable content" ++ nl
  ++ lit "- Maintain at least 3 turns between quizzes" ++ nl
  ++ nl ++ lit "Recent conversation:" ++ nl ++ recent ++ nl
  ++ nl ++ lit "Respond with ONLY " ++ Config.quote ++ lit "YES" ++ Config.quote
  ++ lit " or " ++ Config.quote ++ lit "NO" ++ Config.quote ++ lit ".".

(** The private fields of a [QuizAgentTrigger]; [lastTriggeredAt] is
    [None] while it is [-Infinity]. *)
Record QuizAgent : Type := {
  lastTriggeredAt : option Z;
  minGap : Z
}.

Definition new_QuizAgentTrigger (gap : option Z) : QuizAgent :=
  {| lastTriggeredAt := None;
     minGap := match gap with Some g => g | None => 3%Z end |}.

(** [ctx.messageCount - this.lastTriggeredAt < this.minGap]. *)
Definition too_soon (a : QuizAgent) (count : Z) : bool :=
  match lastTriggeredAt a with
  | None => false
  | Some last => (count - last <? minGap a)%Z
  end.

Definition QuizAgent_onTurn (ai : Gemini.GenAI) (a : QuizAgent) (ctx : TurnContext)
  : QuizAgent * settled (option MCEvent) :=
  if (messageCount ctx <? 4)%Z || too_soon a (messageCount ctx)
  then (a, Fulfilled None)
  else
    match ai {| Gemini.model := Config.MODELS_TEXT;
                Gemini.text := buildDecisionPrompt ctx |} with
    | Rejected r => (a, Rejected r)
    | Fulfilled response =>
        let yes := match response with
                   | Some t => eqb (toUpperCase (trim t)) (lit "YES")
                   | None => false
                   end in
        if negb yes then (a, Fulfilled None)
        else
          match Gemini.generateQuiz ai (history ctx) with
          | Rejected r => (a, Rejected r)
          | Fulfilled questions =>
              match emit questions with
              | Fulfilled (Some ev) =>
                  ({| lastTriggeredAt := Some (messageCount ctx);
                      minGap := minGap a |}, Fulfilled (Some ev))
              | other => (a, other)
              end
          end
    end.

Definition QuizAgentTrigger (ai : Gemini.GenAI) (a : QuizAgent) : EventTrigger :=
  {| name := lit "quiz-agent";
     onTurn := fun ctx => snd (QuizAgent_onTurn ai a ctx) |}.

End Events.

(* ================================================================== *)
(** ** [src/ws-handler.ts]: one WebSocket connection                   *)
(* ================================================================== *)

Module WsHandler.
Import JS Types.

Definition SPEECH_THRESHOLD : Z := 400.
Definition SILENCE_TIMEOUT_MS : Z := 600.

(** *** [calcPCMRMS] *)

(** A Node [Buffer].  An audio frame is identified with the bytes that
    [Buffer.from(msg.data, "base64")] yields; the base64 transport
    encoding itself is not modelled. *)
Definition Buffer : Type := list Byte.byte.

Definition byte_at (buf : Buffer) (offset : nat) : option Z :=
  option_map (fun b => Z.of_N (Byte.to_N b)) (nth_error buf offset).

(** The [| 0] of a bitwise operator: wrap to a signed 32-bit integer. *)
Definition to_int32 (z : Z) : Z :=
  let m := (z mod 4294967296)%Z in
  if (m <? 2147483648)%Z then m else (m - 4294967296)%Z.

(** [buf.readInt16LE(offset)] as Node implements it:
    [val = first + last * 2 ** 8;  val | (val & 2 ** 15) * 0x1fffe].
    [None] is the [RangeError] of a read past the end. *)
Definition readInt16LE (buf : Buffer) (offset : nat) : option Z :=
  match byte_at buf offset, byte_at buf (offset + 1) with
  | Some first, Some last =>
      let val := (first + last * 2 ^ 8)%Z in
      Some (Z.lor (to_int32 val) (to_int32 (Z.land val (2 ^ 15) * 131070)))
  | _, _ => None
  end.

(** The number [calcPCMRMS] returns, kept exact: [0], or
    [Math.sqrt(sum / count)] for the integers [sum] and [count] the loop
    ends with.  ([sum] is exact in a JavaScript number while it stays
    below [2 ^ 53], that is for buffers shorter than 16 MiB.) *)
Inductive energy : Type :=
| Zero
| Root (sum count : Z).

Definition value (e : energy) : R :=
  match e with
  | Zero => 0%R
  | Root sum count => sqrt (IZR sum / IZR count)
  end.

(** [e > threshold], decided on the exact representation. *)
Definition exceeds (e : energy) (threshold : Z) : bool :=
  match e with
  | Zero => (threshold <? 0)%Z
  | Root sum count => (threshold * threshold * count <? sum)%Z
  end.

(** [for (let i = 0; i < count; i++) { s = buf.readInt16LE(i * 2); sum += s * s }] *)
Definition sum_loop (buf : Buffer) (count : nat) : option Z :=
  Events.for_loop count 0
    (fun i acc =>
       match acc, readInt16LE buf (i * 2) with
       | Some sum, Some s => Some (sum + s * s)%Z
       | _, _ => None
       end) (Some 0%Z).

(** [calcPCMRMS]; [None] would be an exception thrown by a read. *)
Definition calcPCMRMS (buf : Buffer) : option energy :=
  let count := Nat.div (length buf) 2 in
  if Nat.eqb count 0 then Some Zero
  else match sum_loop buf count with
       | Some sum => Some (Root sum (Z.of_nat count))
       | None => None
       end.

(** *** The connection *)

Inductive TtsMode : Type := gemini | supertone.

(** The identity of a provider [Session] object and of a timer. *)
Definition Session : Type := nat.
Definition Timer : Type := nat.

Inductive AvatarState : Type := idle | listening | speaking | thinking.

Inductive ServerMessage : Type :=
| session_ready (sessionId : str)
| transcript (text : str)
| ai_text (text : str)
| ai_audio (data mimeType : str) (done : bool)
| avatar_state (state : AvatarState)
| quiz (questions : Json.value)
| error (message : str).

(** What a handler does to the outside, in order. *)
Inductive effect : Type :=
| Send (msg : ServerMessage)                 (* ws.send *)
| ActivityStart (s : Session)                (* sendActivityStart *)
| ActivityEnd (s : Session)                  (* sendActivityEnd *)
| AudioChunk (s : Session) (data : Buffer)   (* sendAudioChunk *)
| CloseLiveSession (s : Session)             (* closeLiveSession *)
| ProcessTurn (ctx : Events.TurnContext).    (* eventEngine.processTurn *)

(** The variables [handleConnection] closes over, and what the runtime
    holds for this connection: the socket state, the armed timers, the
    handle the next [setTimeout] returns, and the database. *)
Record conn : Type := {
  sessionId : option str;
  personaId : str;
  ttsMode : TtsMode;
  geminiSession : option Session;
  currentUserTranscript : str;
  isActivityActive : bool;
  silenceTimer : option Timer;
  wsOpen : bool;
  timers : list Timer;
  nextTimer : Timer;
  db : Db.t
}.

Definition connected (d : Db.t) : conn :=
  {| sessionId := None; personaId := lit "oracle"; ttsMode := gemini;
     geminiSession := None; currentUserTranscript := [];
     isActivityActive := false; silenceTimer := None;
     wsOpen := true; timers := []; nextTimer := 0; db := d |}.

(** **** Handlers: state, effects and exceptions

    A handler maps the connection to the new connection, the effects it
    had, and its result; [None] means it threw, keeping what was done
    before the throw. *)
Definition M (A : Type) : Type := conn -> conn * list effect * option A.

Definition ret {A} (a : A) : M A := fun c => (c, [], Some a).

Definition bind {A B} (m : M A) (k : A -> M B) : M B :=
  fun c =>
    match m c with
    | (c1, out1, Some a) =>
        match k a c1 with
        | (c2, out2, r) => (c2, out1 ++ out2, r)
        end
    | (c1, out1, None) => (c1, out1, None)
    end.

Definition throw {A} : M A := fun c => (c, [], None).
Definition get : M conn := fun c => (c, [], Some c).
Definition put (c' : conn) : M unit := fun _ => (c', [], Some tt).
Definition tell (e : effect) : M unit := fun c => (c, [e], Some tt).


Notation "x <- m ;; k" := (bind m (fun x => k))
  (at level 61, m at next level, right associativity).
Notation "m ;; k" := (bind m (fun _ => k))
  (at level 61, right associativity).

(** Assignments to the closed-over variables. *)
Definition set_sessionId (v : option str) : M unit := fun c =>
  put {| sessionId := v; personaId := personaId c; ttsMode := ttsMode c;
         geminiSession := geminiSession c;
         currentUserTranscript := currentUserTranscript c;
         isActivityActive := isActivityActive c; silenceTimer := silenceTimer c;
         wsOpen := wsOpen c; timers := timers c; nextTimer := nextTimer c;
         db := db c |} c.
Definition set_persona (v : str) (m : TtsMode) : M unit := fun c =>
  put {| sessionId := sessionId c; personaId := v; ttsMode := m;
         geminiSession := geminiSession c;
         currentUserTranscript := currentUserTranscript c;
         isActivityActive := isActivityActive c; silenceTimer := silenceTimer c;
         wsOpen := wsOpen c; timers := timers c; nextTimer := nextTimer c;
         db := db c |} c.
Definition set_geminiSession (v : option Session) : M unit := fun c =>
  put {| sessionId := sessionId c; personaId := personaId c; ttsMode := ttsMode c;
         geminiSession := v;
         currentUserTranscript := currentUserTranscript c;
         isActivityActive := isActivityActive c; silenceTimer := silenceTimer c;
         wsOpen := wsOpen c; timers := timers c; nextTimer := nextTimer c;
         db := db c |} c.
Definition set_currentUserTranscript (v : str) : M unit := fun c =>
  put {| sessionId := sessionId c; personaId := personaId c; ttsMode := ttsMode c;
         geminiSession := geminiSession c;
         currentUserTranscript := v;
         isActivityActive := isActivityActive c; silenceTimer := silenceTimer c;
         wsOpen := wsOpen c; timers := timers c; nextTimer := nextTimer c;
         db := db c |} c.
Definition set_isActivityActive (v : bool) : M unit := fun c =>
  put {| sessionId := sessionId c; personaId := personaId c; ttsMode := ttsMode c;
         geminiSession := geminiSession c;
         currentUserTranscript := currentUserTranscript c;
         isActivityActive := v; silenceTimer := silenceTimer c;
         wsOpen := wsOpen c; timers := timers c; nextTimer := nextTimer c;
         db := db c |} c.
(** [silenceTimer = v], with the runtime's timers after the call that
    produced or cancelled the handle. *)
Definition set_silenceTimer (v : option Timer) (armed : list Timer) (next : Timer)
  : M unit := fun c =>
  put {| sessionId := sessionId c; personaId := personaId c; ttsMode := ttsMode c;
         geminiSession := geminiSession c;
         currentUserTranscript := currentUserTranscript c;
         isActivityActive := isActivityActive c; silenceTimer := v;
         wsOpen := wsOpen c; timers := armed; nextTimer := next;
         db := db c |} c.
Definition set_wsOpen (v : bool) : M unit := fun c =>
  put {| sessionId := sessionId c; personaId := personaId c; ttsMode := ttsMode c;
         geminiSession := geminiSession c;
         currentUserTranscript := currentUserTranscript c;
         isActivityActive := isActivityActive c; silenceTimer := silenceTimer c;
         wsOpen := v; timers := timers c; nextTimer := nextTimer c;
         db := db c |} c.
Definition set_db (v : Db.t) : M unit := fun c =>
  put {| sessionId := sessionId c; personaId := personaId c; ttsMode := ttsMode c;
         geminiSession := geminiSession c;
         currentUserTranscript := currentUserTranscript c;
         isActivityActive := isActivityActive c; silenceTimer := silenceTimer c;
         wsOpen := wsOpen c; timers := timers c; nextTimer := nextTimer c;
         db := v |} c.

(** A statement on the database; it throws when the statement fails. *)
Definition sql (stmt : Db.t -> option Db.t) : M unit :=
  c <- get ;;
  match stmt (db c) with
  | Some d => set_db d
  | None => throw
  end.

(** [send(ws, msg)]: only while the socket is open. *)
Definition send (msg : ServerMessage) : M unit :=
  c <- get ;;
  if wsOpen c then tell (Send msg) else ret tt.

Definition disarm (h : Timer) (armed : list Timer) : list Timer :=
  filter (fun x => negb (Nat.eqb x h)) armed.

Definition armed (h : Timer) (l : list Timer) : bool :=
  existsb (Nat.eqb h) l.

(** [if (silenceTimer) { clearTimeout(silenceTimer); silenceTimer = null; }] *)
Definition clearSilenceTimer : M unit :=
  c <- get ;;
  match silenceTimer c with
  | Some h => set_silenceTimer None (disarm h (timers c)) (nextTimer c)
  | None => ret tt
  end.

(** [silenceTimer = setTimeout(..., SILENCE_TIMEOUT_MS)]. *)
Definition armSilenceTimer : M unit :=
  c <- get ;;
  set_silenceTimer (Some (nextTimer c)) (nextTimer c :: timers c) (S (nextTimer c)).

(** The callback given to [setTimeout]. *)
Definition onSilence : M unit :=
  c <- get ;;
  set_silenceTimer None (timers c) (nextTimer c) ;;
  match geminiSession c with
  | Some s =>
      if isActivityActive c
      then tell (ActivityEnd s) ;; set_isActivityActive false
      else ret tt
  | None => ret tt
  end.

(** The module-level [eventEngine]; its rule trigger reaches the text
    model through [ai]. *)
Definition eventEngine (ai : Gemini.GenAI) : Events.EventEngine :=
  Events.register Events.new_EventEngine (Events.QuizRuleTrigger ai).

(** What the outside supplies while a turn is completed: the readings of
    [Date.now()] and the text model. *)
Record turn_env : Type := {
  now_user : Z;
  now_assistant : Z;
  now_quiz : Z;
  ai : Gemini.GenAI
}.

Definition dispatchEvent (env : turn_env) (event : Events.MCEvent) : M unit :=
  match event with
  | Events.quiz questions =>
      c <- get ;;
      match sessionId c with
      | Some sid => sql (fun d => Db.saveQuiz d sid questions (now_quiz env))
      | None => throw
      end ;;
      send (quiz questions)
  end.

Fixpoint for_of {A} (l : list A) (body : A -> M unit) : M unit :=
  match l with
  | [] => ret tt
  | x :: l' => body x ;; for_of l' body
  end.

Definition saveTurnAndDispatchEvents (aiMessage : str) (env : turn_env) : M unit :=
  c <- get ;;
  match sessionId c, currentUserTranscript c with
  | Some ((_ :: _) as sid), _ :: _ =>
      let utterance := currentUserTranscript c in
      sql (fun d => Db.addMessage d sid user utterance (now_user env)) ;;
      sql (fun d => Db.addMessage d sid assistant aiMessage (now_assistant env)) ;;
      c1 <- get ;;
      let messageCount := Db.getUserMessageCount (db c1) sid in
      let history := Db.getMessages (db c1) sid Config.HISTORY_WINDOW in
      let ctx := {| Events.sessionId := sid;
                    Events.userMessage := utterance;
                    Events.aiMessage := aiMessage;
                    Events.messageCount := messageCount;
                    Events.history := history |} in
      tell (ProcessTurn ctx) ;;
      match Events.processTurn (eventEngine (ai env)) ctx with
      | Fulfilled events => for_of events (dispatchEvent env)
      | Rejected _ => throw
      end
  | _, _ => ret tt           (* a null or empty string is falsy *)
  end.

(** The callbacks shared by both provider modes. *)
Definition onTranscript (text : str) : M unit :=
  set_currentUserTranscript text ;;
  send (transcript text) ;;
  send (avatar_state thinking).

Definition onClose : M unit := set_geminiSession None.

(** [liveCallbacks] (audio mode). *)
Definition onAudioChunk (base64 mimeType : str) (done : bool) (env : turn_env)
  : M unit :=
  if negb done then
    send (ai_audio base64 mimeType false) ;;
    send (avatar_state speaking)
  else
    send (ai_audio [] mimeType true) ;;
    send (avatar_state listening) ;;
    saveTurnAndDispatchEvents (lit "[audio]") env ;;
    set_currentUserTranscript [] ;;
    set_isActivityActive false ;;
    clearSilenceTimer.

Definition onError_live : M unit :=
  send (error (lit "Gemini Live session error")) ;;
  send (avatar_state idle).

(** [textLiveCallbacks] (text mode); [tts] is how the Supertone call
    settles, with the base64 of the audio. *)
Definition onTextResponse (text : str) (tts : settled str) (env : turn_env)
  : M unit :=
  send (ai_text text) ;;
  send (avatar_state speaking) ;;
  match tts with
  | Fulfilled base64 =>
      send (ai_audio base64 (lit "audio/mpeg") false) ;;
      send (ai_audio [] (lit "audio/mpeg") true)
  | Rejected _ => send (error (lit "Supertone TTS failed"))
  end ;;
  send (avatar_state listening) ;;
  saveTurnAndDispatchEvents text env ;;
  set_currentUserTranscript [].

Definition onError_text : M unit :=
  send (error (lit "Gemini Text Live session error")) ;;
  send (avatar_state idle).

(** The cases of [ws.on("message")]. *)
Definition on_init (persona : option str) (mode : option TtsMode)
    (uuid : str) (now : Z) (connect : settled Session) : M unit :=
  c <- get ;;
  match geminiSession c with
  | Some s => tell (CloseLiveSession s) ;; set_geminiSession None
  | None => ret tt
  end ;;
  set_sessionId (Some uuid) ;;
  let p := match persona with Some p => p | None => lit "oracle" end in
  set_persona p (match mode with Some m => m | None => gemini end) ;;
  sql (fun d => Db.createSession d uuid p now) ;;
  match connect with
  | Fulfilled s =>
      set_geminiSession (Some s) ;;
      send (session_ready uuid) ;;
      send (avatar_state listening)
  | Rejected _ => send (error (lit "Failed to connect to Gemini Live"))
  end.

Definition on_audio_chunk (data : Buffer) : M unit :=
  c <- get ;;
  match geminiSession c with
  | None => ret tt
  | Some s =>
      match calcPCMRMS data with
      | None => throw
      | Some e =>
          (if exceeds e SPEECH_THRESHOLD then
             clearSilenceTimer ;;
             (if negb (isActivityActive c)
              then tell (ActivityStart s) ;; set_isActivityActive true
              else ret tt) ;;
             armSilenceTimer
           else ret tt) ;;
          c1 <- get ;;
          if isActivityActive c1 then tell (AudioChunk s data) else ret tt
      end
  end.

Definition on_force_commit : M unit :=
  c <- get ;;
  match geminiSession c with
  | None => ret tt
  | Some s =>
      clearSilenceTimer ;;
      (if isActivityActive c
       then tell (ActivityEnd s) ;; set_isActivityActive false
       else ret tt) ;;
      send (avatar_state thinking)
  end.

(** [ws.on("close")]. *)
Definition on_close : M unit :=
  set_wsOpen false ;;
  clearSilenceTimer ;;
  c <- get ;;
  match geminiSession c with
  | Some s => tell (CloseLiveSession s) ;; set_geminiSession None
  | None => ret tt
  end.

(** Everything that can happen on a connection. *)
Inductive input : Type :=
| InvalidJson
| MsgInit (persona : option str) (mode : option TtsMode)
          (uuid : str) (now : Z) (connect : settled Session)
| MsgAudioChunk (data : Buffer)
| MsgForceCommit
| MsgQuizAnswer (questionId : str) (answerIndex : Z)
| MsgUnknown
| TimerFires (h : Timer)
| OnTranscript (text : str)
| OnAudioChunk (base64 mimeType : str) (done : bool) (env : turn_env)
| OnTextResponse (text : str) (tts : settled str) (env : turn_env)
| OnError (mode : TtsMode)
| OnClose
| WsClose
| WsError.

Definition handle (i : input) : M unit :=
  match i with
  | InvalidJson => send (error (lit "Invalid JSON payload"))
  | MsgInit persona mode uuid now connect => on_init persona mode uuid now connect
  | MsgAudioChunk data => on_audio_chunk data
  | MsgForceCommit => on_force_commit
  | MsgQuizAnswer _ _ => ret tt
  | MsgUnknown => send (error (lit "Unknown message type"))
  | TimerFires h =>
      c <- get ;;
      if armed h (timers c)
      then set_silenceTimer (silenceTimer c) (disarm h (timers c)) (nextTimer c) ;;
           onSilence
      else ret tt
  | OnTranscript text => onTranscript text
  | OnAudioChunk base64 mimeType done env => onAudioChunk base64 mimeType done env
  | OnTextResponse text tts env => onTextResponse text tts env
  | OnError gemini => onError_live
  | OnError supertone => onError_text
  | OnClose => onClose
  | WsClose => on_close
  | WsError => ret tt
  end.

(** One step of the connection: the state after the handler and its
    effects (also when the handler threw). *)
Definition step (c : conn) (i : input) : conn * list effect :=
  let '(c', out, _) := handle i c in (c', out).

(** The log of a run: every input with the effects it had. *)
Fixpoint run (c : conn) (ins : list input) : list (input * list effect) :=
  match ins with
  | [] => []
  | i :: ins' =>
      let '(c', out) := step c i in (i, out) :: run c' ins'
  end.

Fixpoint exec (c : conn) (ins : list input) : conn :=
  match ins with
  | [] => c
  | i :: ins' => exec (fst (step c i)) ins'
  end.

Definition effects (log : list (input * list effect)) : list effect :=
  flat_map snd log.


(** *** What a log shows of the activity signals *)








(** The frames forwarded to the provider by a handler. *)
Definition forwarded (out : list effect) : list (Session * Buffer) :=
  flat_map (fun e => match e with AudioChunk s d => [(s, d)] | _ => [] end) out.

(** The turn contexts given to the event engine, in order. *)
Definition context_of (e : effect) : list Events.TurnContext :=
  match e with ProcessTurn ctx => [ctx] | _ => [] end.

Definition contexts (out : list effect) : list Events.TurnContext :=
  flat_map context_of out.

Definition is_init (i : input) : bool :=
  match i with MsgInit _ _ _ _ _ => true | _ => false end.

(** The user messages stored for a session, as [getUserMessageCount]
    counts them. *)
Definition user_messages (sid : str) (c : conn) : Z :=
  Db.getUserMessageCount (db c) sid.

(** The quizzes sent to the client. *)
Definition quiz_of (e : effect) : list Json.value :=
  match e with Send (quiz q) => [q] | _ => [] end.

Definition quizzes_sent (out : list effect) : list Json.value :=
  flat_map quiz_of out.

(** The quizzes stored so far. *)
Definition quizzes_saved (c : conn) : list Json.value :=
  map Db.q_questions (Db.quizzes (db c)).


(** Reading a handler's result. *)
Definition state_of {A} (r : conn * list effect * option A) : conn := fst (fst r).
Definition out_of {A} (r : conn * list effect * option A) : list effect := snd (fst r).
Definition result_of {A} (r : conn * list effect * option A) : option A := snd r.

(** A handler is steady for a reading [f] of the connection and a reading
    [g] of the effects when it leaves [f] as it was and has no effect that
    [g] shows. *)
Definition steady {X Y A} (f : conn -> X) (g : effect -> list Y) (m : M A) : Prop :=
  forall c, f (state_of (m c)) = f c /\ flat_map g (out_of (m c)) = [].



(** From [c] to [c'] with the effects [out], within session [sid]: every
    context given to the engine carries the number of user messages stored
    at that moment, and each recorded turn adds one. *)
Definition counted (sid : str) (c c' : conn) (out : list effect) : Prop :=
  sessionId c' = Some sid
  /\ user_messages sid c' = (user_messages sid c + Z.of_nat (length (contexts out)))%Z
  /\ map Events.messageCount (contexts out)
     = map (fun k => (user_messages sid c + Z.of_nat k)%Z)
           (seq 1 (length (contexts out))).

(** What the count reads of a connection. *)
Definition reading (sid : str) (c : conn) : option str * Z :=
  (sessionId c, user_messages sid c).

Definition counting {A} (sid : str) (m : M A) : Prop :=
  forall c, sessionId c = Some sid -> counted sid c (state_of (m c)) (out_of (m c)).

(** The runtime holds exactly the timer the connection remembers. *)
Definition timer_ok (c : conn) : Prop :=
  timers c = match silenceTimer c with Some h => [h] | None => [] end.

(** A handler keeps an invariant of the connection. *)
Definition keeps {A} (I : conn -> Prop) (m : M A) : Prop :=
  forall c, I c -> I (state_of (m c)).

(** The variables the timer invariant reads. *)
Definition timer_vars (c : conn) : option Timer * list Timer :=
  (silenceTimer c, timers c).

Definition no_effect (e : effect) : list unit := [].





(** What reaches a provider session at all. *)
Definition provider_of (e : effect) : list effect :=
  match e with
  | ActivityStart _ | ActivityEnd _ | AudioChunk _ _ | CloseLiveSession _ => [e]
  | _ => []
  end.

(** An input that opens a provider session. *)
Definition opens (i : input) : bool :=
  match i with
  | MsgInit _ _ _ _ (JS.Fulfilled _) => true
  | _ => false
  end.

(** A handler that, started without a provider session, ends without one
    and sends nothing to any. *)
Definition idle_without_session {A} (m : M A) : Prop :=
  forall c, geminiSession c = None ->
            geminiSession (state_of (m c)) = None
            /\ flat_map provider_of (out_of (m c)) = [].



(** A turn at which the rule trigger is due. *)
Definition quiz_due (ctx : Events.TurnContext) : Prop :=
  (0 < Events.messageCount ctx)%Z
  /\ (Config.TRIGGER_EVERY_N_MESSAGES | Events.messageCount ctx)%Z.

(** A handler that sends and stores no quiz, unless it gives the engine a
    turn at which the rule trigger is due. *)
Definition quiz_if_due {A} (m : M A) : Prop :=
  forall c,
    (quizzes_saved (state_of (m c)) = quizzes_saved c
     /\ flat_map quiz_of (out_of (m c)) = [])
    \/ exists ctx, In ctx (contexts (out_of (m c))) /\ quiz_due ctx.


End WsHandler.

(* ================================================================== *)
(** ** The root-mean-square of a buffer, in the words of the spec      *)
(* ================================================================== *)

Module AudioSpec.

(** A 16-bit pattern read as a signed (two's complement) integer. *)
Definition int16 (u : Z) : Z := if (u <? 32768)%Z then u else (u - 65536)%Z.

(** The samples of a buffer of 16-bit signed little-endian values: one
    per complete pair of bytes, low byte first. *)
Fixpoint samples (buf : list Byte.byte) : list Z :=
  match buf with
  | lo :: hi :: rest =>
      int16 (Z.of_N (Byte.to_N lo) + 256 * Z.of_N (Byte.to_N hi)) :: samples rest
  | _ => []
  end.

Definition sum_of_squares (xs : list Z) : Z :=
  fold_right (fun x acc => (x * x + acc)%Z) 0%Z xs.

(** The root of the mean of the squares; [0] for no sample. *)
Definition rms (xs : list Z) : R :=
  match xs with
  | [] => 0%R
  | _ => sqrt (IZR (sum_of_squares xs) / INR (length xs))
  end.

(** The sign extension of [readInt16LE] agrees with [int16] on [val]. *)
Definition sign_extension_ok (val : Z) : bool :=
  (Z.lor (WsHandler.to_int32 val)
         (WsHandler.to_int32 (Z.land val (2 ^ 15) * 131070)) =? int16 val)%Z.

(** [p] holds of the [n] integers from [v] on. *)
Fixpoint all_from (p : Z -> bool) (n : nat) (v : Z) : bool :=
  match n with
  | O => true
  | S n' => p v && all_from p n' (v + 1)%Z
  end.

End AudioSpec.

(* ================================================================== *)
(** ** Sequences of calls, and orderings of timestamps                 *)
(* ================================================================== *)

Module Calls.
Import Types.


Fixpoint descending (ts : list Z) : bool :=
  match ts with
  | a :: ((b :: _) as rest) => (b <=? a)%Z && descending rest
  | _ => true
  end.

(** A text without backquote. *)
Definition plain (body : JS.str) : bool :=
  forallb (fun c => negb (c =? 96)%N) body.




End Calls.

(* ================================================================== *)
(** ** Sample data for the concrete runs below                         *)
(* ================================================================== *)

Module Scenario.
Import JS WsHandler.

(** One sample of value 1000, and one of value 10. *)
Definition loud_frame : Buffer := [Byte.xe8; Byte.x03].
Definition soft_frame : Buffer := [Byte.x0a; Byte.x00].

(** A text model that answers every request with [reply]. *)
Definition answering (reply : string) : Gemini.GenAI :=
  fun _ => Fulfilled (Some (lit reply)).

Definition at_time (t : Z) (model : Gemini.GenAI) : turn_env :=
  {| now_user := t; now_assistant := t; now_quiz := t; ai := model |}.

Definition init : input :=
  MsgInit (Some (lit "oracle")) None (lit "5f0c") 1000 (Fulfilled 1).

Definition turn_complete (t : Z) (model : Gemini.GenAI) : input :=
  OnAudioChunk [] (lit "audio/pcm;rate=24000") true (at_time t model).


(** A well-formed answer of the text model: one question. *)
Definition one_question : str :=
  let q := Config.quote in
  lit "[{" ++ q ++ lit "id" ++ q ++ lit ":" ++ q ++ lit "q1" ++ q ++ lit ","
  ++ q ++ lit "question" ++ q ++ lit ":" ++ q ++ lit "2+2?" ++ q ++ lit ","
  ++ q ++ lit "answers" ++ q ++ lit ":[" ++ q ++ lit "3" ++ q ++ lit ","
  ++ q ++ lit "4" ++ q ++ lit "]," ++ q ++ lit "correctIndex" ++ q ++ lit ":1,"
  ++ q ++ lit "timeLimit" ++ q ++ lit ":20}]".

Definition quizmaster : Gemini.GenAI := fun _ => Fulfilled (Some one_question).

(** A transcribed utterance followed by the completed answer. *)
Definition turn (t : Z) (model : Gemini.GenAI) : list input :=
  [ OnTranscript (lit "hello"); turn_complete t model ].

Definition five_turns_with (model : Gemini.GenAI) : list input :=
  turn 2000 model ++ turn 3000 model ++ turn 4000 model
  ++ turn 5000 model ++ turn 6000 model.

Definition five_turns : list input := five_turns_with quizmaster.

(** The connection once the first session is open. *)
Definition in_session : conn := exec (connected Db.empty) [init].


(** Twelve older messages, and a newer exchange in front of them. *)
Definition twelve_older : list Types.Message :=
  repeat {| Types.role := Types.user; Types.content := lit "old";
            Types.timestamp := 1000 |} 12.

Definition newer_exchange : list Types.Message :=
  [ {| Types.role := Types.assistant; Types.content := lit "new answer";
       Types.timestamp := 3000 |};
    {| Types.role := Types.user; Types.content := lit "new question";
       Types.timestamp := 3000 |} ].

(** The context of a turn with [n] user messages so far. *)
Definition context (n : Z) : Events.TurnContext :=
  {| Events.sessionId := lit "5f0c"; Events.userMessage := lit "hello";
     Events.aiMessage := lit "[audio]"; Events.messageCount := n;
     Events.history := [] |}.

(** A model that judges the moment suitable (the decision prompt starts
    with the letter Y of [You]) and answers the generation prompt with
    [reply]. *)
Definition eager (reply : string) : Gemini.GenAI :=
  fun req =>
    match Gemini.text req with
    | 89%N :: _ => Fulfilled (Some (lit "yes"))
    | _ => Fulfilled (Some (lit reply))
    end.

(** A store with one session, and the two messages of one turn inserted
    within the same millisecond, as [saveTurnAndDispatchEvents] does. *)
Definition store_of (rows : list (Types.Role * string * Z)) : option Db.t :=
  fold_left
    (fun d row =>
       match d with
       | Some d' => Db.addMessage d' (lit "5f0c") (fst (fst row))
                      (lit (snd (fst row))) (snd row)
       | None => None
       end)
    rows (Db.createSession Db.empty (lit "5f0c") (lit "oracle") 1000).

Definition same_millisecond : option Db.t :=
  store_of [(Types.user, "hello"%string, 2000%Z);
            (Types.assistant, "[audio]"%string, 2000%Z)].

(** The wall clock is set back between the two inserts. *)
Definition clock_set_back : option Db.t :=
  store_of [(Types.user, "hello"%string, 2000%Z);
            (Types.assistant, "[audio]"%string, 1990%Z)].


End Scenario.

(* ================================================================== *)
(** * Properties                                                       *)
(* ================================================================== *)

(** ** The activity state machine *)

Section Steady.
Import WsHandler.
Context {X Y : Type} (f : conn -> X) (g : effect -> list Y).

Lemma bind_run {A B} (m : M A) (k : A -> M B) (c : conn) :
  bind m k c =
  match result_of (m c) with
  | Some a => (state_of (k a (state_of (m c))),
               out_of (m c) ++ out_of (k a (state_of (m c))),
               result_of (k a (state_of (m c))))
  | None => (state_of (m c), out_of (m c), None)
  end.
Proof.
  unfold bind, result_of, state_of, out_of.
  destruct (m c) as [[c1 o1] [a|]]; simpl; [|reflexivity].
  destruct (k a c1) as [[c2 o2] r]; reflexivity.
Qed.

Lemma steady_bind {A B} (m : M A) (k : A -> M B) :
  steady f g m -> (forall a, steady f g (k a)) -> steady f g (bind m k).
Proof.
  intros Hm Hk c. rewrite bind_run.
  destruct (Hm c) as [Ha Hs].
  destruct (result_of (m c)) as [a|]; cbn [state_of out_of fst snd].
  - destruct (Hk a (state_of (m c))) as [Ha' Hs'].
    rewrite flat_map_app, Hs, Hs', Ha', Ha. auto.
  - auto.
Qed.

Lemma steady_ret {A} (a : A) : steady f g (ret a).
Proof. intro c. split; reflexivity. Qed.

Lemma steady_throw {A} : steady f g (@throw A).
Proof. intro c. split; reflexivity. Qed.

Lemma steady_get : steady f g get.
Proof. intro c. split; reflexivity. Qed.

Lemma steady_tell (e : effect) : g e = [] -> steady f g (tell e).
Proof. intros H c. split; [reflexivity|]. simpl. rewrite H. reflexivity. Qed.

(** An assignment is steady when [f] does not read the variable. *)
Lemma steady_assign (set : M unit) :
  (forall c, out_of (set c) = []) ->
  (forall c, f (state_of (set c)) = f c) -> steady f g set.
Proof. intros Ho Hf c. rewrite Ho. split; [apply Hf | reflexivity]. Qed.

Lemma steady_sql stmt :
  (forall c d, stmt (db c) = Some d -> f (state_of (set_db d c)) = f c) ->
  steady f g (sql stmt).
Proof.
  intros H c. unfold sql, bind, get.
  destruct (stmt (db c)) as [d|] eqn:E; [|split; reflexivity].
  split; [|reflexivity]. apply (H c d E).
Qed.

Lemma steady_for_of {A} (l : list A) (body : A -> M unit) :
  (forall a, steady f g (body a)) -> steady f g (for_of l body).
Proof.
  intro H. induction l as [|x l IH]; simpl.
  - apply steady_ret.
  - apply steady_bind; [apply H | intros ?; apply IH].
Qed.

Lemma steady_send_msg (msg : ServerMessage) :
  g (Send msg) = [] -> steady f g (send msg).
Proof.
  intros H c. unfold send, bind, get. simpl.
  destruct (wsOpen c); split; simpl; rewrite ?H; reflexivity.
Qed.

(** What [f] and [g] do not read. *)
Hypothesis g_send : forall msg, g (Send msg) = [].
Hypothesis g_close : forall s, g (CloseLiveSession s) = [].
Hypothesis f_transcript :
  forall v c, f (state_of (set_currentUserTranscript v c)) = f c.
Hypothesis f_timer : forall v a n c, f (state_of (set_silenceTimer v a n c)) = f c.
Hypothesis f_ws : forall v c, f (state_of (set_wsOpen v c)) = f c.
Hypothesis f_session : forall v c, f (state_of (set_geminiSession v c)) = f c.
Hypothesis f_quiz : forall c d sid q now,
  Db.saveQuiz (db c) sid q now = Some d -> f (state_of (set_db d c)) = f c.

Lemma steady_send (msg : ServerMessage) : steady f g (send msg).
Proof.
  intro c. unfold send, bind, get. simpl.
  destruct (wsOpen c); split; simpl; rewrite ?g_send; reflexivity.
Qed.

Lemma steady_set_currentUserTranscript v : steady f g (set_currentUserTranscript v).
Proof. apply steady_assign; [reflexivity | apply f_transcript]. Qed.

Lemma steady_set_silenceTimer v a n : steady f g (set_silenceTimer v a n).
Proof. apply steady_assign; [reflexivity | apply f_timer]. Qed.

Lemma steady_set_wsOpen v : steady f g (set_wsOpen v).
Proof. apply steady_assign; [reflexivity | apply f_ws]. Qed.

Lemma steady_set_geminiSession v : steady f g (set_geminiSession v).
Proof. apply steady_assign; [reflexivity | apply f_session]. Qed.

Lemma steady_clearSilenceTimer : steady f g clearSilenceTimer.
Proof.
  unfold clearSilenceTimer. apply steady_bind; [apply steady_get|].
  intro c. destruct (silenceTimer c);
    [apply steady_set_silenceTimer | apply steady_ret].
Qed.

Lemma steady_dispatchEvent env ev : steady f g (dispatchEvent env ev).
Proof.
  destruct ev as [q]. unfold dispatchEvent.
  apply steady_bind; [apply steady_get|]. intro c.
  apply steady_bind; [|intros ?; apply steady_send].
  destruct (sessionId c); [|apply steady_throw].
  apply steady_sql. intros c' d. apply f_quiz.
Qed.

Lemma steady_onTranscript text : steady f g (onTranscript text).
Proof.
  unfold onTranscript.
  apply steady_bind; [apply steady_set_currentUserTranscript|].
  intros ?. apply steady_bind; intros; apply steady_send.
Qed.

Lemma steady_onError mode : steady f g (handle (OnError mode)).
Proof. destruct mode; apply steady_bind; intros; apply steady_send. Qed.

Lemma steady_onAudioChunk_partial base64 mimeType env :
  steady f g (onAudioChunk base64 mimeType false env).
Proof. unfold onAudioChunk; simpl. apply steady_bind; intros; apply steady_send. Qed.

Lemma steady_on_close : steady f g on_close.
Proof.
  unfold on_close.
  apply steady_bind; [apply steady_set_wsOpen|]. intros ?.
  apply steady_bind; [apply steady_clearSilenceTimer|]. intros ?.
  apply steady_bind; [apply steady_get|]. intro c.
  destruct (geminiSession c); [|apply steady_ret].
  apply steady_bind; [apply steady_tell, g_close|].
  intros ?; apply steady_set_geminiSession.
Qed.

(** The handlers of the activity state machine are steady for readings
    that ignore the flag and the signals. *)
Hypothesis g_start : forall s, g (ActivityStart s) = [].
Hypothesis g_end : forall s, g (ActivityEnd s) = [].
Hypothesis g_audio : forall s d, g (AudioChunk s d) = [].
Hypothesis f_active : forall v c, f (state_of (set_isActivityActive v c)) = f c.

Lemma steady_set_isActivityActive v : steady f g (set_isActivityActive v).
Proof. apply steady_assign; [reflexivity | apply f_active]. Qed.

Lemma steady_on_audio_chunk data : steady f g (on_audio_chunk data).
Proof.
  unfold on_audio_chunk. apply steady_bind; [apply steady_get|]. intro c.
  destruct (geminiSession c) as [s|]; [|apply steady_ret].
  destruct (calcPCMRMS data) as [e|]; [|apply steady_throw].
  apply steady_bind.
  - destruct (exceeds e SPEECH_THRESHOLD); [|apply steady_ret].
    apply steady_bind; [apply steady_clearSilenceTimer|]. intros ?.
    apply steady_bind.
    + destruct (negb (isActivityActive c)); [|apply steady_ret].
      apply steady_bind; [apply steady_tell, g_start|].
      intros ?; apply steady_set_isActivityActive.
    + intros ?. unfold armSilenceTimer.
      apply steady_bind; [apply steady_get|]. intros ?.
      apply steady_set_silenceTimer.
  - intros ?. apply steady_bind; [apply steady_get|]. intro c1.
    destruct (isActivityActive c1); [apply steady_tell, g_audio | apply steady_ret].
Qed.

Lemma steady_lower_flag (s : Session) (act : bool) :
  steady f g (if act then tell (ActivityEnd s) ;; set_isActivityActive false
              else ret tt).
Proof.
  destruct act; [|apply steady_ret].
  apply steady_bind; [apply steady_tell, g_end|].
  intros ?; apply steady_set_isActivityActive.
Qed.

Lemma steady_on_force_commit : steady f g on_force_commit.
Proof.
  unfold on_force_commit. apply steady_bind; [apply steady_get|]. intro c.
  destruct (geminiSession c) as [s|]; [|apply steady_ret].
  apply steady_bind; [apply steady_clearSilenceTimer|]. intros ?.
  apply steady_bind; [apply steady_lower_flag|]. intros ?. apply steady_send.
Qed.

Lemma steady_timer h : steady f g (handle (TimerFires h)).
Proof.
  unfold handle. apply steady_bind; [apply steady_get|]. intro c.
  destruct (armed h (timers c)); [|apply steady_ret].
  apply steady_bind; [apply steady_set_silenceTimer|]. intros ?.
  unfold onSilence. apply steady_bind; [apply steady_get|]. intro c1.
  apply steady_bind; [apply steady_set_silenceTimer|]. intros ?.
  destruct (geminiSession c1); [apply steady_lower_flag | apply steady_ret].
Qed.

End Steady.

Section Activity.
Import WsHandler.

Ltac by_reading := intros; reflexivity.























Lemma step_handle c i : step c i = (state_of (handle i c), out_of (handle i c)).
Proof. unfold step, state_of, out_of. destruct (handle i c) as [[c' o] r]. reflexivity. Qed.








End Activity.

(** ** The energy detector *)

Section Energy.
Import WsHandler AudioSpec.
Local Open Scope Z_scope.

Lemma all_from_spec (p : Z -> bool) (n : nat) : forall v,
  all_from p n v = true -> forall k, v <= k < v + Z.of_nat n -> p k = true.
Proof.
  induction n as [|n IH]; intros v H k Hk; [lia|].
  cbn [all_from] in H. apply andb_prop in H. destruct H as [Hv Hrest].
  destruct (Z.eq_dec k v) as [->|Hne]; [exact Hv|].
  apply (IH (v + 1)); [exact Hrest | lia].
Qed.

(** The sign extension of [readInt16LE], checked on all 65536 patterns. *)
Lemma sign_extension_all : all_from sign_extension_ok (Z.to_nat 65536) 0 = true.
Proof. vm_compute. reflexivity. Qed.

Lemma sign_extension (val : Z) :
  0 <= val < 65536 ->
  Z.lor (to_int32 val) (to_int32 (Z.land val (2 ^ 15) * 131070)) = int16 val.
Proof.
  intro H. apply Z.eqb_eq.
  change (sign_extension_ok val = true).
  apply (@all_from_spec _ _ _ sign_extension_all val). lia.
Qed.

Lemma byte_range (b : Byte.byte) : 0 <= Z.of_N (Byte.to_N b) < 256.
Proof. pose proof (Byte.to_N_bounded b). lia. Qed.

Lemma readInt16LE_head lo hi rest :
  readInt16LE (lo :: hi :: rest) 0 =
  Some (int16 (Z.of_N (Byte.to_N lo) + 256 * Z.of_N (Byte.to_N hi))).
Proof.
  unfold readInt16LE, byte_at. simpl nth_error. cbn [option_map].
  rewrite sign_extension.
  - f_equal. f_equal. lia.
  - pose proof (byte_range lo). pose proof (byte_range hi). lia.
Qed.

Lemma readInt16LE_skip lo hi rest (i : nat) :
  readInt16LE (lo :: hi :: rest) (S i * 2) = readInt16LE rest (i * 2).
Proof.
  unfold readInt16LE, byte_at.
  replace (S i * 2)%nat with (S (S (i * 2))) by lia. reflexivity.
Qed.

(** Reading at offset [2 i] yields the [i]-th sample, and fails exactly
    when there is none. *)
Lemma readInt16LE_sample (i : nat) : forall buf,
  readInt16LE buf (i * 2) = nth_error (samples buf) i.
Proof.
  induction i as [|i IH]; intros [|lo [|hi rest]]; try reflexivity.
  - apply readInt16LE_head.
  - rewrite readInt16LE_skip. simpl. apply IH.
Qed.

Lemma samples_length : forall buf, length (samples buf) = Nat.div (length buf) 2.
Proof.
  fix IH 1. intros [|lo [|hi rest]]; try reflexivity.
  cbn [samples length]. rewrite IH.
  change (S (S (length rest))) with (2 + length rest)%nat.
  replace (2 + length rest)%nat with (length rest + 1 * 2)%nat by lia.
  rewrite Nat.div_add by lia. lia.
Qed.

Lemma for_loop_ext {S : Type} (f g : nat -> S -> S) :
  (forall i s, f i s = g i s) ->
  forall count i s, Events.for_loop count i f s = Events.for_loop count i g s.
Proof.
  intros H count. induction count as [|n IH]; intros i s; simpl; [reflexivity|].
  rewrite H. apply IH.
Qed.

Lemma skipn_nth_error {A} (xs : list A) : forall i x,
  nth_error xs i = Some x -> skipn i xs = x :: skipn (S i) xs.
Proof.
  induction xs as [|y xs IH]; intros [|i] x H; simpl in *; try discriminate.
  - congruence.
  - apply IH. exact H.
Qed.

(** The loop of [calcPCMRMS] over the samples [xs], started at index [i]
    with the partial sum [acc]. *)
Lemma loop_sums (xs : list Z) : forall count i acc,
  (i + count <= length xs)%nat ->
  Events.for_loop count i
    (fun i acc => match acc, nth_error xs i with
                  | Some sum, Some s => Some (sum + s * s)
                  | _, _ => None
                  end) (Some acc)
  = Some (acc + sum_of_squares (firstn count (skipn i xs))).
Proof.
  induction count as [|n IH]; intros i acc Hlen; simpl.
  - f_equal. lia.
  - destruct (nth_error xs i) as [x|] eqn:Hx.
    + rewrite IH by lia. rewrite (skipn_nth_error _ _ Hx). simpl.
      f_equal. lia.
    + apply nth_error_None in Hx. lia.
Qed.

Lemma sum_loop_samples (buf : Buffer) :
  sum_loop buf (Nat.div (length buf) 2) = Some (sum_of_squares (samples buf)).
Proof.
  unfold sum_loop.
  rewrite for_loop_ext with
    (g := fun i acc => match acc, nth_error (samples buf) i with
                       | Some sum, Some s => Some (sum + s * s)
                       | _, _ => None
                       end).
  - rewrite loop_sums by (rewrite samples_length; lia).
    rewrite <- samples_length. simpl skipn. rewrite firstn_all. reflexivity.
  - intros i s. rewrite readInt16LE_sample. reflexivity.
Qed.

(** [calcPCMRMS] never throws, and what it computes. *)
Lemma calcPCMRMS_exact (buf : Buffer) :
  calcPCMRMS buf =
  Some (if Nat.eqb (Nat.div (length buf) 2) 0 then Zero
        else Root (sum_of_squares (samples buf)) (Z.of_nat (Nat.div (length buf) 2))).
Proof.
  unfold calcPCMRMS. rewrite sum_loop_samples.
  destruct (Nat.eqb _ 0); reflexivity.
Qed.

Lemma sum_of_squares_nonneg (xs : list Z) : 0 <= sum_of_squares xs.
Proof. induction xs as [|x xs IH]; simpl; [lia | nia]. Qed.

(** The comparison with the threshold, decided on integers, is the
    comparison of the real numbers. *)
Lemma exceeds_Root (sum count t : Z) :
  0 <= sum -> 0 < count -> 0 <= t ->
  exceeds (Root sum count) t = true <-> (IZR t < value (Root sum count))%R.
Proof.
  intros Hs Hc Ht. unfold exceeds, value. rewrite Z.ltb_lt.
  assert (Hc' : (0 < IZR count)%R) by (apply IZR_lt; exact Hc).
  assert (Ht' : (0 <= IZR t)%R) by (apply IZR_le; exact Ht).
  assert (Hq : (0 <= IZR sum / IZR count)%R).
  { apply Rmult_le_pos; [apply IZR_le; exact Hs|].
    left. apply Rinv_0_lt_compat. exact Hc'. }
  assert (Hdiv : (IZR t * IZR t < IZR sum / IZR count)%R
                 <-> t * t * count < sum).
  { assert (Heq : (IZR sum / IZR count * IZR count = IZR sum)%R)
      by (field; lra).
    split; intro H.
    - apply lt_IZR. rewrite !mult_IZR. rewrite <- Heq.
      apply Rmult_lt_compat_r; assumption.
    - apply Rmult_lt_reg_r with (IZR count); [exact Hc'|].
      rewrite Heq, <- !mult_IZR. apply IZR_lt. exact H. }
  rewrite <- Hdiv. split; intro H.
  - rewrite <- (sqrt_square (IZR t)) at 1 by exact Ht'.
    apply sqrt_lt_1_alt. split; [apply Rle_0_sqr | exact H].
  - rewrite <- (sqrt_sqrt (IZR sum / IZR count)) by exact Hq.
    apply Rmult_le_0_lt_compat; assumption.
Qed.

Lemma exceeds_threshold (buf : Buffer) (e : energy) :
  calcPCMRMS buf = Some e ->
  exceeds e SPEECH_THRESHOLD = true <-> (IZR SPEECH_THRESHOLD < value e)%R.
Proof.
  rewrite calcPCMRMS_exact. intro H. injection H as <-.
  destruct (Nat.eqb _ 0) eqn:Hn.
  - simpl. unfold SPEECH_THRESHOLD. split; [discriminate | lra].
  - apply Nat.eqb_neq in Hn. apply exceeds_Root.
    + apply sum_of_squares_nonneg.
    + lia.
    + unfold SPEECH_THRESHOLD. lia.
Qed.

(** C9.  For every buffer, [calcPCMRMS] returns (it does not throw) the
    root-mean-square of the 16-bit signed little-endian samples the
    buffer holds; the value is a non-negative real number, and it is [0]
    when the buffer holds no complete sample.  (Numbers are exact here:
    the rounding of binary64 division and square root is not modelled.) *)
Theorem calcPCMRMS_is_rms (buf : Buffer) :
  exists e, calcPCMRMS buf = Some e
            /\ value e = rms (samples buf)
            /\ (0 <= value e)%R
            /\ (samples buf = [] -> e = Zero).
Proof.
  rewrite calcPCMRMS_exact. eexists. split; [reflexivity|].
  rewrite <- (samples_length buf).
  destruct (samples buf) as [|x xs].
  - cbn [length Nat.eqb value rms]. repeat split; lra.
  - cbn [length Nat.eqb]. unfold value, rms. rewrite INR_IZR_INZ.
    repeat split; [apply sqrt_pos | discriminate].
Qed.

End Energy.

(** ** Forwarding of audio frames *)

Section Forwarding.
Import WsHandler.

Ltac run_audio :=
  cbv [bind get put tell ret throw clearSilenceTimer armSilenceTimer
       set_silenceTimer set_isActivityActive forwarded];
  cbn [sessionId personaId ttsMode geminiSession currentUserTranscript
       isActivityActive silenceTimer wsOpen timers nextTimer db
       fst snd flat_map app].

(** C8.  On a connection whose provider session [s] is open, an inbound
    frame is forwarded to [s] (once, unchanged) when the activity flag is
    up after the frame's energy has been processed, whatever that energy
    is; when the flag is down the frame is not forwarded. *)
Theorem frame_forwarded_iff_active (c : conn) (s : Session) (data : Buffer) :
  geminiSession c = Some s ->
  forwarded (snd (step c (MsgAudioChunk data))) =
  if isActivityActive (fst (step c (MsgAudioChunk data)))
  then [(s, data)] else [].
Proof.
  intro Hs. unfold step, handle, on_audio_chunk.
  destruct c as [sid pid mode gs tr act st ws tm nt d]. simpl in Hs. subst gs.
  rewrite calcPCMRMS_exact.
  destruct (Nat.eqb _ 0);
    [|destruct (exceeds _ SPEECH_THRESHOLD)];
    run_audio;
    try (destruct (exceeds Zero SPEECH_THRESHOLD); run_audio);
    destruct st as [h|]; destruct act; reflexivity.
Qed.

Lemma frame_forwarded_iff_active_witness :
  geminiSession (exec (connected Db.empty) [Scenario.init]) = Some 1
  /\ forwarded (snd (step (exec (connected Db.empty) [Scenario.init])
                          (MsgAudioChunk Scenario.loud_frame)))
     = [(1, Scenario.loud_frame)].
Proof.
  split; [reflexivity|].
  exact (@frame_forwarded_iff_active
           (exec (connected Db.empty) [Scenario.init]) 1
           Scenario.loud_frame eq_refl).
Defined.

(** Without an open provider session a frame has no effect at all. *)
Lemma frame_dropped_without_session (c : conn) (data : Buffer) :
  geminiSession c = None -> step c (MsgAudioChunk data) = (c, []).
Proof.
  intro Hs. unfold step, handle, on_audio_chunk, bind, get.
  rewrite Hs. reflexivity.
Qed.

End Forwarding.

(** ** The user-message count given to the triggers *)

Section Counting.
Import WsHandler.
Local Open Scope Z_scope.
Variable sid : JS.str.

Lemma eqb_refl (a : JS.str) : JS.eqb a a = true.
Proof. induction a as [|x a IH]; simpl; [reflexivity|]. rewrite N.eqb_refl. exact IH. Qed.

Lemma addMessage_count d r text now d' :
  Db.addMessage d sid r text now = Some d' ->
  Db.getUserMessageCount d' sid =
  Db.getUserMessageCount d sid + (if Types.Role_eqb r Types.user then 1 else 0).
Proof.
  unfold Db.addMessage. destruct (Db.has_session d sid); [|discriminate].
  intro H. injection H as <-. unfold Db.getUserMessageCount. cbn [Db.messages].
  rewrite filter_app, length_app. cbn [filter Db.m_session_id Db.m_role].
  rewrite eqb_refl. destruct r; simpl; lia.
Qed.

Lemma saveQuiz_count d s q now d' :
  Db.saveQuiz d s q now = Some d' ->
  Db.getUserMessageCount d' sid = Db.getUserMessageCount d sid.
Proof.
  unfold Db.saveQuiz. destruct (Db.has_session d s); [|discriminate].
  intro H. injection H as <-. reflexivity.
Qed.

Lemma counted_steady {A} (m : M A) : steady (reading sid) context_of m -> counting sid m.
Proof.
  intros H c Hc. destruct (H c) as [Hf Hg]. unfold reading in Hf.
  injection Hf as Hsid Hcount. unfold counted, contexts. rewrite Hg. simpl.
  repeat split; [congruence | lia].
Qed.

Lemma seq_offset (a : Z) (n len : nat) : forall start,
  map (fun k => a + Z.of_nat n + Z.of_nat k) (seq start len)
  = map (fun k => a + Z.of_nat k) (seq (start + n) len).
Proof.
  induction len as [|len IH]; intro start; simpl; [reflexivity|].
  rewrite IH. f_equal. lia.
Qed.

Lemma counted_trans c c1 c2 o1 o2 :
  counted sid c c1 o1 -> counted sid c1 c2 o2 -> counted sid c c2 (o1 ++ o2).
Proof.
  intros (_ & Hn1 & Hm1) (Hs2 & Hn2 & Hm2). unfold counted, contexts in *.
  rewrite flat_map_app, length_app, map_app, seq_app, map_app.
  repeat split; [exact Hs2 | lia |].
  rewrite Hm1, Hm2, Hn1, seq_offset. reflexivity.
Qed.

Lemma counting_bind {A B} (m : M A) (k : A -> M B) :
  counting sid m -> (forall a, counting sid (k a)) -> counting sid (bind m k).
Proof.
  intros Hm Hk c Hc. rewrite bind_run. pose proof (Hm c Hc) as H1.
  destruct (result_of (m c)) as [a|]; cbn [state_of out_of fst snd].
  - apply counted_trans with (c1 := state_of (m c)); [exact H1|].
    apply Hk. apply H1.
  - exact H1.
Qed.

Lemma reading_send : forall msg, context_of (Send msg) = [].
Proof. reflexivity. Qed.

Lemma reading_quiz : forall c d s q now,
  Db.saveQuiz (db c) s q now = Some d ->
  reading sid (state_of (set_db d c)) = reading sid c.
Proof.
  intros c d s q now H. unfold reading, user_messages. cbn.
  rewrite (saveQuiz_count _ _ _ _ H). reflexivity.
Qed.

Ltac by_reading := first [exact reading_quiz | intros; reflexivity].

Lemma counting_send msg : counting sid (send msg).
Proof. apply counted_steady, steady_send; by_reading. Qed.

Lemma counting_set_currentUserTranscript v : counting sid (set_currentUserTranscript v).
Proof. apply counted_steady, steady_assign; by_reading. Qed.

Lemma counting_ret {A} (a : A) : counting sid (ret a).
Proof. apply counted_steady, steady_ret. Qed.

Lemma bind_some {A B} (m : M A) (k : A -> M B) c c1 o1 a :
  m c = (c1, o1, Some a) ->
  bind m k c = (state_of (k a c1), o1 ++ out_of (k a c1), result_of (k a c1)).
Proof. intro H. rewrite bind_run, H. reflexivity. Qed.

Lemma bind_none {A B} (m : M A) (k : A -> M B) c c1 o1 :
  m c = (c1, o1, None) -> bind m k c = (c1, o1, None).
Proof. intro H. rewrite bind_run, H. reflexivity. Qed.

Lemma sql_some stmt c d :
  stmt (db c) = Some d -> sql stmt c = (state_of (set_db d c), [], Some tt).
Proof. intro H. unfold sql, bind, get. rewrite H. reflexivity. Qed.

Lemma sql_none stmt c : stmt (db c) = None -> sql stmt c = (c, [], None).
Proof. intro H. unfold sql, bind, get. rewrite H. reflexivity. Qed.

Lemma addMessage_twice d r1 t1 n1 d1 r2 t2 n2 :
  Db.addMessage d sid r1 t1 n1 = Some d1 ->
  exists d2, Db.addMessage d1 sid r2 t2 n2 = Some d2.
Proof.
  unfold Db.addMessage. destruct (Db.has_session d sid) eqn:Hh; [|discriminate].
  intro H. injection H as <-. unfold Db.has_session in *. cbn [Db.sessions].
  rewrite Hh. eexists. reflexivity.
Qed.

(** The turn is recorded and the engine is given the new count. *)
Lemma counting_saveTurnAndDispatchEvents aiMessage env :
  counting sid (saveTurnAndDispatchEvents aiMessage env).
Proof.
  intros c Hc. unfold saveTurnAndDispatchEvents.
  rewrite bind_run. cbn [get result_of state_of out_of fst snd app].
  destruct (sessionId c) as [[|x s']|] eqn:E; [| |discriminate];
    assert (Hc' : sessionId c = Some sid) by congruence;
    [apply (@counting_ret unit tt c Hc')|].
  destruct (currentUserTranscript c) as [|u us] eqn:Hu;
    [apply (@counting_ret unit tt c Hc')|].
  assert (Hs : x :: s' = sid) by congruence. rewrite Hs. clear E Hs Hc x s'.
  destruct (Db.addMessage (db c) sid Types.user (u :: us) (now_user env))
    as [d1|] eqn:E1.
  2:{ erewrite bind_none by (apply sql_none; exact E1).
      apply (@counting_ret unit tt c Hc'). }
  erewrite bind_some by (apply sql_some; exact E1).
  set (c1 := state_of (set_db d1 c)).
  destruct (@addMessage_twice _ _ _ _ _ Types.assistant aiMessage (now_assistant env) E1)
    as [d2 E2].
  erewrite bind_some by (apply sql_some; exact E2).
  set (c2 := state_of (set_db d2 c1)).
  rewrite bind_run. cbn [get result_of state_of out_of fst snd app].
  set (ctx := {| Events.sessionId := sid |}).
  rewrite bind_run. cbn [tell result_of state_of out_of fst snd app].
  match goal with |- context [ ?m c2 ] =>
    assert (Htail : steady (reading sid) context_of m) end.
  { destruct (Events.processTurn _ _); [|apply steady_throw].
    apply steady_for_of. intro ev. apply steady_dispatchEvent; by_reading. }
  destruct (Htail c2) as [Hf Hg].
  assert (Hsid := f_equal fst Hf). assert (Hcount := f_equal snd Hf).
  cbn [reading fst snd] in Hsid, Hcount. clear Hf.
  unfold counted, contexts. cbn [flat_map context_of app].
  rewrite Hg. cbn [length map seq app].
  assert (Hn : user_messages sid c2 = user_messages sid c + 1).
  { unfold user_messages, c2, c1. cbn [db state_of set_db put fst].
    rewrite (@addMessage_count _ _ _ _ _ E2), (@addMessage_count _ _ _ _ _ E1).
    simpl. lia. }
  repeat split.
  - rewrite Hsid. exact Hc'.
  - rewrite Hcount, Hn. lia.
  - f_equal. unfold ctx. cbn [Events.messageCount]. exact Hn.
Qed.

Lemma counting_handle (i : input) : is_init i = false -> counting sid (handle i).
Proof.
  intro Hi. destruct i; try discriminate; unfold handle.
  - apply counting_send.
  - apply counted_steady, steady_on_audio_chunk; by_reading.
  - apply counted_steady, steady_on_force_commit; by_reading.
  - apply counting_ret.
  - apply counting_send.
  - apply counted_steady. apply steady_timer; by_reading.
  - apply counted_steady, steady_onTranscript; by_reading.
  - destruct done.
    + unfold onAudioChunk. cbn [negb].
      apply counting_bind; [apply counting_send|]. intros ?.
      apply counting_bind; [apply counting_send|]. intros ?.
      apply counting_bind; [apply counting_saveTurnAndDispatchEvents|]. intros ?.
      apply counting_bind; [apply counting_set_currentUserTranscript|]. intros ?.
      apply counting_bind;
        [apply counted_steady, steady_assign; by_reading|]. intros ?.
      apply counted_steady, steady_clearSilenceTimer; by_reading.
    + apply counted_steady, steady_onAudioChunk_partial; by_reading.
  - unfold onTextResponse.
    apply counting_bind; [apply counting_send|]. intros ?.
    apply counting_bind; [apply counting_send|]. intros ?.
    apply counting_bind.
    { destruct tts; [apply counting_bind; intros|]; apply counting_send. }
    intros ?. apply counting_bind; [apply counting_send|]. intros ?.
    apply counting_bind; [apply counting_saveTurnAndDispatchEvents|]. intros ?.
    apply counting_set_currentUserTranscript.
  - apply counted_steady. apply steady_onError; by_reading.
  - apply counted_steady, steady_assign; by_reading.
  - apply counted_steady, steady_on_close; by_reading.
  - apply counting_ret.
Qed.

Lemma counting_run (ins : list input) : forall c,
  sessionId c = Some sid ->
  Forall (fun i => is_init i = false) ins ->
  counted sid c (exec c ins) (effects (run c ins)).
Proof.
  induction ins as [|i ins IH]; intros c Hc Hins.
  - apply (@counting_ret unit tt c Hc).
  - inversion Hins as [|? ? Hi Hins']; subst.
    cbn [run exec]. rewrite step_handle. cbn [fst effects flat_map snd].
    pose proof (@counting_handle i Hi c Hc) as H1.
    apply counted_trans with (c1 := state_of (handle i c)); [exact H1|].
    apply IH; [apply H1 | exact Hins'].
Qed.

End Counting.

(** C7.  Within a session that starts with no stored message, and as long
    as the client does not re-initialise, the contexts given to the event
    engine carry the user-message counts 1, 2, ..., k in order: the count
    of the k-th recorded turn is k.  It is read from the store after the
    turn's own utterance has been appended and before [processTurn] runs,
    so that after the run the store holds exactly k user messages for the
    session. *)
Theorem messageCount_is_turn_number
    (sid : JS.str) (c : WsHandler.conn) (ins : list WsHandler.input) :
  WsHandler.sessionId c = Some sid ->
  Db.getUserMessageCount (WsHandler.db c) sid = 0%Z ->
  Forall (fun i => WsHandler.is_init i = false) ins ->
  let passed := WsHandler.contexts (WsHandler.effects (WsHandler.run c ins)) in
  map Events.messageCount passed = map Z.of_nat (seq 1 (length passed))
  /\ Db.getUserMessageCount (WsHandler.db (WsHandler.exec c ins)) sid
     = Z.of_nat (length passed).
Proof.
  intros Hc H0 Hins passed.
  destruct (@counting_run sid ins c Hc Hins) as (_ & Hn & Hm).
  unfold WsHandler.user_messages in *. fold passed in Hn, Hm.
  rewrite H0 in Hn, Hm. split; [exact Hm | exact Hn].
Qed.

Lemma messageCount_is_turn_number_witness :
  let passed := WsHandler.contexts
                  (WsHandler.effects
                     (WsHandler.run Scenario.in_session Scenario.five_turns)) in
  map Events.messageCount passed = [1; 2; 3; 4; 5]%Z
  /\ Db.getUserMessageCount
       (WsHandler.db (WsHandler.exec Scenario.in_session Scenario.five_turns))
       (JS.lit "5f0c") = 5%Z.
Proof.
  assert (H1 : WsHandler.sessionId Scenario.in_session = Some (JS.lit "5f0c"))
    by reflexivity.
  assert (H2 : Db.getUserMessageCount (WsHandler.db Scenario.in_session)
                 (JS.lit "5f0c") = 0%Z) by reflexivity.
  assert (H3 : Forall (fun i => WsHandler.is_init i = false) Scenario.five_turns)
    by (repeat constructor).
  pose proof (@messageCount_is_turn_number (JS.lit "5f0c") Scenario.in_session
                Scenario.five_turns H1 H2 H3) as W.
  cbv zeta in W. cbv zeta. destruct W as [Wa Wb].
  split; [exact Wa | exact Wb].
Defined.

(** ** The store: recent history *)

Section History.
Import Types.
Local Open Scope Z_scope.

(** C3 fails on the code.  The two messages of a turn are inserted within
    the same millisecond; [ORDER BY timestamp DESC] then returns the user
    message first, although the assistant message was appended last. *)
Lemma getMessages_same_millisecond :
  option_map (fun d => map content (Db.getMessages d (JS.lit "5f0c") 1))
             Scenario.same_millisecond
  = Some [JS.lit "hello"].
Proof. reflexivity. Qed.

(** So does a wall clock that is set back between two inserts, whatever
    the order of rows of equal timestamp. *)
Lemma getMessages_clock_set_back :
  option_map (fun d => map content (Db.getMessages d (JS.lit "5f0c") 1))
             Scenario.clock_set_back
  = Some [JS.lit "hello"].
Proof. reflexivity. Qed.

Lemma eqb_eq (a b : JS.str) : JS.eqb a b = true <-> a = b.
Proof.
  revert b. induction a as [|x a IH]; intros [|y b]; simpl;
    try (split; [discriminate | discriminate]); [split; reflexivity|].
  rewrite andb_true_iff, N.eqb_eq, IH. split.
  - intros [-> ->]. reflexivity.
  - intro H. injection H as -> ->. auto.
Qed.







Lemma insert_desc_perm (r : Db.message_row) (l : list Db.message_row) :
  Permutation (Db.insert_desc r l) (r :: l).
Proof.
  induction l as [|x l IH]; simpl; [apply Permutation_refl|].
  destruct (Db.m_timestamp x <? Db.m_timestamp r); [apply Permutation_refl|].
  eapply Permutation_trans; [apply perm_skip, IH | apply perm_swap].
Qed.

Lemma insert_desc_sorted (r : Db.message_row) (l : list Db.message_row) :
  Calls.descending (map Db.m_timestamp l) = true ->
  Calls.descending (map Db.m_timestamp (Db.insert_desc r l)) = true.
Proof.
  induction l as [|x l IH]; intro H; [reflexivity|].
  cbn [Db.insert_desc]. destruct (Db.m_timestamp x <? Db.m_timestamp r) eqn:E.
  - cbn [map Calls.descending] in H |- *. rewrite andb_true_iff. split; [|exact H].
    apply Z.leb_le. apply Z.ltb_lt in E. lia.
  - apply Z.ltb_ge in E.
    assert (Hl : Calls.descending (map Db.m_timestamp l) = true).
    { destruct l; [reflexivity|]. cbn [map Calls.descending] in H.
      apply andb_prop in H. apply H. }
    specialize (IH Hl). destruct l as [|y l].
    + cbn. rewrite andb_true_r. apply Z.leb_le. exact E.
    + cbn [Db.insert_desc] in IH |- *.
      destruct (Db.m_timestamp y <? Db.m_timestamp r).
      * cbn [map Calls.descending] in IH |- *. rewrite IH, andb_true_r.
        apply Z.leb_le. exact E.
      * cbn [map Calls.descending] in H |- *. apply andb_prop in H.
        destruct H as [H _]. rewrite H. exact IH.
Qed.

Lemma order_by_sorted_perm (rows : list Db.message_row) : forall acc,
  Calls.descending (map Db.m_timestamp acc) = true ->
  let sorted := fold_left (fun sorted r => Db.insert_desc r sorted) rows acc in
  Calls.descending (map Db.m_timestamp sorted) = true
  /\ Permutation sorted (rows ++ acc).
Proof.
  induction rows as [|r rows IH]; intros acc H; cbn [fold_left app].
  - split; [exact H | apply Permutation_refl].
  - destruct (IH _ (insert_desc_sorted r acc H)) as [Hs Hp]. split; [exact Hs|].
    eapply Permutation_trans; [exact Hp|].
    eapply Permutation_trans;
      [apply Permutation_app_head, insert_desc_perm | apply Permutation_sym, Permutation_middle].
Qed.

Lemma descending_firstn (n : nat) : forall ts,
  Calls.descending ts = true -> Calls.descending (firstn n ts) = true.
Proof.
  induction n as [|n IH]; intros ts H; [reflexivity|].
  destruct ts as [|a [|b ts]]; [reflexivity | destruct n; reflexivity |].
  cbn [Calls.descending] in H. apply andb_prop in H.
  destruct H as [Hab H]. specialize (IH (b :: ts) H).
  destruct n; [reflexivity|]. cbn [firstn Calls.descending] in IH |- *.
  rewrite Hab. exact IH.
Qed.

(** X2.  What [getMessages] returns in general: the first [limit] rows of an
    arrangement of the session's rows in which timestamps never increase;
    so at most [limit] messages, all of them if the session has no more,
    in newest-first order of timestamp. *)
Theorem getMessages_sorted_prefix (d : Db.t) (sid : JS.str) (limit : nat) :
  exists sorted,
    Permutation sorted (Db.of_session sid (Db.messages d))
    /\ Calls.descending (map Db.m_timestamp sorted) = true
    /\ Db.getMessages d sid limit = map Db.to_Message (firstn limit sorted)
    /\ length (Db.getMessages d sid limit)
       = Nat.min limit (length (Db.of_session sid (Db.messages d)))
    /\ Calls.descending (map timestamp (Db.getMessages d sid limit)) = true.
Proof.
  destruct (order_by_sorted_perm (Db.of_session sid (Db.messages d)) [] eq_refl)
    as [Hs Hp].
  rewrite app_nil_r in Hp.
  exists (Db.order_by_timestamp_desc (Db.of_session sid (Db.messages d))).
  split; [exact Hp|]. split; [exact Hs|]. split; [reflexivity|]. split.
  - unfold Db.getMessages, Db.order_by_timestamp_desc.
    rewrite length_map, length_firstn, (Permutation_length Hp). reflexivity.
  - unfold Db.getMessages, Db.order_by_timestamp_desc. rewrite map_map.
    change (fun x => timestamp (Db.to_Message x)) with Db.m_timestamp.
    rewrite <- firstn_map. apply descending_firstn. exact Hs.
Qed.

(** X3.  Appending to one session changes the user-message count of that
    session only, and by one exactly when the role is [user]; the history
    of every other session reads as before. *)
Theorem addMessage_touches_one_session
    (d d' : Db.t) (sid other : JS.str) (r : Role) (text : JS.str) (now : Z) :
  Db.addMessage d sid r text now = Some d' ->
  Db.getUserMessageCount d' sid
    = Db.getUserMessageCount d sid + (if Role_eqb r user then 1 else 0)
  /\ (other <> sid ->
      Db.getUserMessageCount d' other = Db.getUserMessageCount d other
      /\ forall limit, Db.getMessages d' other limit = Db.getMessages d other limit).
Proof.
  intro H. split; [exact (addMessage_count _ _ _ _ _ H)|].
  intro Hne. unfold Db.addMessage in H.
  destruct (Db.has_session d sid); [|discriminate]. injection H as <-.
  assert (Hf : JS.eqb sid other = false).
  { destruct (JS.eqb sid other) eqn:E; [|reflexivity].
    apply eqb_eq in E. congruence. }
  unfold Db.getUserMessageCount, Db.getMessages, Db.of_session. cbn [Db.messages].
  rewrite !filter_app. cbn [filter Db.m_session_id]. rewrite Hf. cbn [andb].
  rewrite !app_nil_r. split; reflexivity.
Qed.

Lemma addMessage_touches_one_session_witness :
  exists d',
    Db.addMessage (WsHandler.db Scenario.in_session) (JS.lit "5f0c") user
                  (JS.lit "hello") 2000 = Some d'
    /\ Db.getUserMessageCount d' (JS.lit "5f0c") = 1
    /\ Db.getUserMessageCount d' (JS.lit "other") = 0.
Proof.
  eexists. split; [reflexivity|].
  destruct (@addMessage_touches_one_session
              (WsHandler.db Scenario.in_session) _ (JS.lit "5f0c") (JS.lit "other")
              user (JS.lit "hello") 2000 eq_refl) as [Hown Hother].
  split; [exact Hown|].
  apply Hother. discriminate.
Defined.

End History.

(** ** The event engine *)

Section Engine.
Import JS Events.

(** The loop of [processTurn] from index [i] on, with [events] collected
    so far. *)
Lemma collect_loop (results : list (settled (option MCEvent))) :
  forall count i events,
  (i + count <= length results)%nat ->
  for_loop count i
    (fun i events =>
       match nth_error results i with
       | Some (Fulfilled (Some v)) => events ++ [v]
       | _ => events
       end) events
  = events ++ flat_map (fun r => match r with
                                 | Fulfilled (Some v) => [v]
                                 | _ => []
                                 end) (firstn count (skipn i results)).
Proof.
  induction count as [|n IH]; intros i events Hlen; simpl.
  - rewrite app_nil_r. reflexivity.
  - destruct (nth_error results i) as [r|] eqn:Hr.
    + rewrite IH by lia. rewrite (skipn_nth_error _ _ Hr). simpl.
      destruct r as [[v|]|]; rewrite <- ?app_assoc; reflexivity.
    + apply nth_error_None in Hr. lia.
Qed.

Lemma processTurn_fired (e : EventEngine) (ctx : TurnContext) :
  processTurn e ctx = Fulfilled (flat_map (fired ctx) (triggers e)).
Proof.
  unfold processTurn. f_equal.
  rewrite collect_loop by lia. simpl skipn. rewrite firstn_all. simpl.
  rewrite flat_map_concat_map, map_map, <- flat_map_concat_map. reflexivity.
Qed.





End Engine.

(** ** The quiz triggers *)

Section Triggers.
Import JS Events.
Local Open Scope Z_scope.

Lemma generateQuiz_result (ai : Gemini.GenAI) (history : list Types.Message) result :
  ai {| Gemini.model := Config.MODELS_TEXT;
        Gemini.text := Config.GENERATION_PROMPT (Gemini.conversationText history) |}
    = Fulfilled result ->
  Gemini.generateQuiz ai history =
  Fulfilled (match Json.parse (Gemini.cleaned result) with
             | Some v => v
             | None => Json.JArray []
             end).
Proof.
  intro H. unfold Gemini.generateQuiz. rewrite H. unfold await, Gemini.cleaned.
  destruct (Json.parse _); reflexivity.
Qed.


(** The guard of the rule trigger. *)
Lemma rule_gate (n : Z) :
  (n <=? 0) || negb (Z.rem n Config.TRIGGER_EVERY_N_MESSAGES =? 0) = false
  <-> 0 < n /\ (Config.TRIGGER_EVERY_N_MESSAGES | n).
Proof.
  unfold Config.TRIGGER_EVERY_N_MESSAGES.
  rewrite orb_false_iff, negb_false_iff, Z.leb_gt, Z.eqb_eq.
  rewrite Z.rem_divide by lia. reflexivity.
Qed.



(** With interval 5: an event at the counts 5, 10 and 15 when generation
    yields a question; none at 1, 4, 6 and 9, whatever the model says. *)
Lemma rule_trigger_examples (ai : Gemini.GenAI) :
  map (fun n => QuizRule_onTurn ai (Scenario.context n)) [1; 4; 6; 9; 0; -5]
    = [Fulfilled None; Fulfilled None; Fulfilled None; Fulfilled None;
       Fulfilled None; Fulfilled None]
  /\ map (fun n => match QuizRule_onTurn Scenario.quizmaster (Scenario.context n) with
                   | Fulfilled (Some _) => true
                   | _ => false
                   end) [5; 10; 15]
     = [true; true; true].
Proof. split; reflexivity. Qed.

(** C5 fails on the code: the cast of the parsed value checks nothing.
    When the model answers the fifth turn with the JSON object [{}], the
    rule trigger emits a quiz whose payload is that object: it holds no
    question, and it is sent to the client and stored. *)
Theorem quiz_without_questions :
  let c := WsHandler.exec (WsHandler.connected Db.empty) [Scenario.init] in
  let turns := Scenario.five_turns_with (Scenario.answering "{}") in
  QuizRule_onTurn (Scenario.answering "{}") (Scenario.context 5)
    = Fulfilled (Some (quiz (Json.JObject [])))
  /\ WsHandler.quizzes_sent (WsHandler.effects (WsHandler.run c turns))
     = [Json.JObject []]
  /\ WsHandler.quizzes_saved (WsHandler.exec c turns) = [Json.JObject []].
Proof. vm_compute. repeat split. Qed.

(** The agent trigger emits the same event and records the turn. *)
Lemma agent_quiz_without_questions :
  QuizAgent_onTurn (Scenario.eager "{}") (new_QuizAgentTrigger None)
                   (Scenario.context 5)
  = ({| lastTriggeredAt := Some 5; minGap := 3 |},
     Fulfilled (Some (quiz (Json.JObject [])))).
Proof. vm_compute. reflexivity. Qed.

(** A model whose every answer fails to parse. *)
Lemma generateQuiz_malformed (ai : Gemini.GenAI) :
  (forall req, exists result,
      ai req = Fulfilled result /\ Json.parse (Gemini.cleaned result) = None) ->
  forall history, Gemini.generateQuiz ai history = Fulfilled (Json.JArray []).
Proof.
  intros H history.
  destruct (H {| Gemini.model := Config.MODELS_TEXT;
                 Gemini.text := Config.GENERATION_PROMPT
                                  (Gemini.conversationText history) |})
    as [result [Hai Hparse]].
  rewrite (generateQuiz_result ai history Hai), Hparse. reflexivity.
Qed.

Lemma no_event_no_quiz (env : WsHandler.turn_env) (aiMessage : str) :
  (forall ctx, processTurn (WsHandler.eventEngine (WsHandler.ai env)) ctx = Fulfilled []) ->
  WsHandler.steady WsHandler.quizzes_saved WsHandler.quiz_of
         (WsHandler.saveTurnAndDispatchEvents aiMessage env).
Proof.
  intro H. unfold WsHandler.saveTurnAndDispatchEvents.
  apply steady_bind; [apply steady_get|]. intro c.
  destruct (WsHandler.sessionId c) as [[|x sid]|]; try apply steady_ret.
  destruct (WsHandler.currentUserTranscript c) as [|u us]; try apply steady_ret.
  assert (Hadd : forall r text now,
             WsHandler.steady WsHandler.quizzes_saved WsHandler.quiz_of
               (WsHandler.sql (fun d => Db.addMessage d (x :: sid) r text now))).
  { intros r text now. apply steady_sql. intros c' d.
    unfold Db.addMessage. destruct (Db.has_session _ _); [|discriminate].
    intro E. injection E as <-. reflexivity. }
  apply steady_bind; [apply Hadd|]. intros ?.
  apply steady_bind; [apply Hadd|]. intros ?.
  apply steady_bind; [apply steady_get|]. intro c1.
  apply steady_bind; [apply steady_tell; reflexivity|]. intros ?.
  rewrite H. apply steady_ret.
Qed.

(** C6.  When every answer of the text model is malformed, that is, when
    [JSON.parse] rejects the cleaned text (a fence around invalid JSON
    included), [generateQuiz] is fulfilled with the empty list instead of
    failing; both triggers are fulfilled with no event; and a completed
    turn, in either response mode, sends no quiz and stores none. *)
Theorem malformed_output_yields_no_quiz (ai : Gemini.GenAI) :
  (forall req, exists result,
      ai req = Fulfilled result /\ Json.parse (Gemini.cleaned result) = None) ->
  (forall history, Gemini.generateQuiz ai history = Fulfilled (Json.JArray []))
  /\ (forall ctx, QuizRule_onTurn ai ctx = Fulfilled None)
  /\ (forall a ctx, QuizAgent_onTurn ai a ctx = (a, Fulfilled None))
  /\ (forall c i,
        (exists base64 mimeType nu na nq,
            i = WsHandler.OnAudioChunk base64 mimeType true
                  {| WsHandler.now_user := nu; WsHandler.now_assistant := na;
                     WsHandler.now_quiz := nq; WsHandler.ai := ai |})
        \/ (exists text tts nu na nq,
            i = WsHandler.OnTextResponse text tts
                  {| WsHandler.now_user := nu; WsHandler.now_assistant := na;
                     WsHandler.now_quiz := nq; WsHandler.ai := ai |}) ->
        WsHandler.quizzes_sent (snd (WsHandler.step c i)) = []
        /\ WsHandler.quizzes_saved (fst (WsHandler.step c i))
           = WsHandler.quizzes_saved c).
Proof.
  intro H. pose proof (generateQuiz_malformed ai H) as Hgen.
  assert (Hrule : forall ctx, QuizRule_onTurn ai ctx = Fulfilled None).
  { intro ctx. unfold QuizRule_onTurn. destruct (_ || _); [reflexivity|].
    rewrite Hgen. reflexivity. }
  split; [exact Hgen|]. split; [exact Hrule|]. split.
  - intros a ctx. unfold QuizAgent_onTurn. destruct (_ || _); [reflexivity|].
    destruct (H {| Gemini.model := Config.MODELS_TEXT;
                   Gemini.text := buildDecisionPrompt ctx |}) as [result [Hai _]].
    rewrite Hai. destruct (negb _); [reflexivity|]. rewrite Hgen. reflexivity.
  - assert (Hturn : forall env aiMessage, WsHandler.ai env = ai ->
               WsHandler.steady WsHandler.quizzes_saved WsHandler.quiz_of
                 (WsHandler.saveTurnAndDispatchEvents aiMessage env)).
    { intros env aiMessage Henv. apply no_event_no_quiz. intro ctx.
      rewrite Henv, processTurn_fired. cbn [WsHandler.eventEngine register
        new_EventEngine triggers app flat_map]. unfold fired.
      cbn [onTurn QuizRuleTrigger]. rewrite Hrule. reflexivity. }
    assert (Hsend : forall msg, WsHandler.quiz_of (WsHandler.Send msg) = [] ->
               WsHandler.steady WsHandler.quizzes_saved WsHandler.quiz_of (WsHandler.send msg)).
    { intros msg Hm. apply steady_send_msg. exact Hm. }
    intros c i Hi. rewrite step_handle. cbn [fst snd].
    assert (Hs : WsHandler.steady WsHandler.quizzes_saved WsHandler.quiz_of (WsHandler.handle i)).
    { destruct Hi as [(b & m & nu & na & nq & ->) | (t & tts & nu & na & nq & ->)];
        cbn [WsHandler.handle].
      - unfold WsHandler.onAudioChunk. cbn [negb].
        apply steady_bind; [apply Hsend; reflexivity|]. intros ?.
        apply steady_bind; [apply Hsend; reflexivity|]. intros ?.
        apply steady_bind; [apply Hturn; reflexivity|]. intros ?.
        apply steady_bind; [apply steady_assign; intros; reflexivity|]. intros ?.
        apply steady_bind; [apply steady_assign; intros; reflexivity|]. intros ?.
        unfold WsHandler.clearSilenceTimer.
        apply steady_bind; [apply steady_get|]. intro c1.
        destruct (WsHandler.silenceTimer c1);
          [apply steady_assign; intros; reflexivity | apply steady_ret].
      - unfold WsHandler.onTextResponse.
        apply steady_bind; [apply Hsend; reflexivity|]. intros ?.
        apply steady_bind; [apply Hsend; reflexivity|]. intros ?.
        apply steady_bind.
        { destruct tts; [apply steady_bind; intros|]; apply Hsend; reflexivity. }
        intros ?. apply steady_bind; [apply Hsend; reflexivity|]. intros ?.
        apply steady_bind; [apply Hturn; reflexivity|]. intros ?.
        apply steady_assign; intros; reflexivity. }
    destruct (Hs c) as [Hf Hg]. split; [exact Hg | exact Hf].
Qed.

Lemma malformed_output_yields_no_quiz_witness :
  Gemini.generateQuiz (Scenario.answering "```json {oops ```") []
    = Fulfilled (Json.JArray [])
  /\ QuizRule_onTurn (Scenario.answering "```json {oops ```") (Scenario.context 5)
     = Fulfilled None.
Proof.
  assert (H : forall req, exists result,
             Scenario.answering "```json {oops ```" req = Fulfilled result
             /\ Json.parse (Gemini.cleaned result) = None).
  { intro req. eexists. split; [reflexivity | vm_compute; reflexivity]. }
  destruct (@malformed_output_yields_no_quiz _ H) as (Hgen & Hrule & _).
  split; [apply Hgen | apply Hrule].
Defined.

End Triggers.

(** ** More on the connection: timers, windows, clean-up *)

Section Handlers.
Import WsHandler.
Context {X Y : Type} (f : conn -> X) (g : effect -> list Y).

Hypothesis g_send : forall msg, g (Send msg) = [].
Hypothesis g_turn : forall ctx, g (ProcessTurn ctx) = [].
Hypothesis g_close : forall s, g (CloseLiveSession s) = [].
Hypothesis f_transcript :
  forall v c, f (state_of (set_currentUserTranscript v c)) = f c.
Hypothesis f_add : forall c d sid r text now,
  Db.addMessage (db c) sid r text now = Some d -> f (state_of (set_db d c)) = f c.
Hypothesis f_quiz : forall c d sid q now,
  Db.saveQuiz (db c) sid q now = Some d -> f (state_of (set_db d c)) = f c.
Hypothesis f_create : forall c d id p now,
  Db.createSession (db c) id p now = Some d -> f (state_of (set_db d c)) = f c.
Hypothesis f_sessionId : forall v c, f (state_of (set_sessionId v c)) = f c.
Hypothesis f_persona : forall v m c, f (state_of (set_persona v m c)) = f c.
Hypothesis f_session : forall v c, f (state_of (set_geminiSession v c)) = f c.

Lemma steady_saveTurnAndDispatchEvents aiMessage env :
  steady f g (saveTurnAndDispatchEvents aiMessage env).
Proof.
  unfold saveTurnAndDispatchEvents.
  apply steady_bind; [apply steady_get|]. intro c.
  destruct (sessionId c) as [[|x sid]|]; try apply steady_ret.
  destruct (currentUserTranscript c) as [|u us]; try apply steady_ret.
  apply steady_bind; [apply steady_sql; intros c' d; apply f_add|]. intros ?.
  apply steady_bind; [apply steady_sql; intros c' d; apply f_add|]. intros ?.
  apply steady_bind; [apply steady_get|]. intro c1.
  apply steady_bind; [apply steady_tell, g_turn|]. intros ?.
  destruct (Events.processTurn _ _); [|apply steady_throw].
  apply steady_for_of. intro ev.
  apply steady_dispatchEvent; [exact g_send | exact f_quiz].
Qed.

Lemma steady_onTextResponse text tts env : steady f g (onTextResponse text tts env).
Proof.
  unfold onTextResponse.
  apply steady_bind; [apply steady_send, g_send|]. intros ?.
  apply steady_bind; [apply steady_send, g_send|]. intros ?.
  apply steady_bind.
  { destruct tts; [apply steady_bind; intros|]; apply steady_send, g_send. }
  intros ?. apply steady_bind; [apply steady_send, g_send|]. intros ?.
  apply steady_bind; [apply steady_saveTurnAndDispatchEvents|]. intros ?.
  apply steady_assign; [reflexivity | apply f_transcript].
Qed.

Lemma steady_on_init persona mode uuid now connect :
  steady f g (on_init persona mode uuid now connect).
Proof.
  unfold on_init.
  apply steady_bind; [apply steady_get|]. intro c.
  apply steady_bind.
  { destruct (geminiSession c); [|apply steady_ret].
    apply steady_bind; [apply steady_tell, g_close|].
    intros ?; apply steady_assign; [reflexivity | apply f_session]. }
  intros ?. apply steady_bind;
    [apply steady_assign; [reflexivity | apply f_sessionId]|].
  intros ?. apply steady_bind;
    [apply steady_assign; [reflexivity | apply f_persona]|].
  intros ?. apply steady_bind; [apply steady_sql; intros c' d; apply f_create|].
  intros ?. destruct connect.
  - apply steady_bind; [apply steady_assign; [reflexivity | apply f_session]|].
    intros ?. apply steady_bind; intros; apply steady_send, g_send.
  - apply steady_send, g_send.
Qed.

End Handlers.

Section Timers.
Import WsHandler.

Lemma keeps_bind {A B} (I : conn -> Prop) (m : M A) (k : A -> M B) :
  keeps I m -> (forall a, keeps I (k a)) -> keeps I (bind m k).
Proof.
  intros Hm Hk c Hc. rewrite bind_run. pose proof (Hm c Hc) as H1.
  destruct (result_of (m c)) as [a|]; cbn [state_of fst]; [|exact H1].
  apply (Hk a). exact H1.
Qed.

Lemma keeps_steady {X Y A} (f : conn -> X) (g : effect -> list Y)
    (I : conn -> Prop) (m : M A) :
  (forall c c', f c' = f c -> I c -> I c') -> steady f g m -> keeps I m.
Proof. intros HI Hs c Hc. apply (HI c); [apply Hs | exact Hc]. Qed.

Lemma timer_ok_vars c c' : timer_vars c' = timer_vars c -> timer_ok c -> timer_ok c'.
Proof.
  unfold timer_vars, timer_ok. intros H Hc.
  injection H as Hs Ht. rewrite Hs, Ht. exact Hc.
Qed.

Ltac untouched :=
  apply (@keeps_steady _ _ _ timer_vars no_effect timer_ok _ timer_ok_vars).

Ltac compute_handler :=
  cbv [bind get put tell ret throw clearSilenceTimer armSilenceTimer onSilence
       set_silenceTimer set_isActivityActive send state_of out_of
       fst snd timer_ok];
  cbn [sessionId personaId ttsMode geminiSession currentUserTranscript
       isActivityActive silenceTimer wsOpen timers nextTimer db].

Lemma disarm_only (h : Timer) : disarm h [h] = [].
Proof. unfold disarm. simpl. rewrite Nat.eqb_refl. reflexivity. Qed.

Lemma keeps_clearSilenceTimer : keeps timer_ok clearSilenceTimer.
Proof.
  intros c Hc. unfold timer_ok in Hc.
  destruct c as [sid pid mode gs tr act st ws tm nt d]; cbn in Hc. subst tm.
  destruct st as [h|]; compute_handler; rewrite ?disarm_only; reflexivity.
Qed.

Lemma keeps_on_audio_chunk data : keeps timer_ok (on_audio_chunk data).
Proof.
  intros c Hc. unfold timer_ok in Hc. unfold on_audio_chunk.
  destruct c as [sid pid mode gs tr act st ws tm nt d]; cbn in Hc. subst tm.
  compute_handler.
  destruct gs as [s|]; [|destruct st; reflexivity].
  destruct (calcPCMRMS data) as [e|]; [|destruct st; reflexivity].
  destruct (exceeds e SPEECH_THRESHOLD); destruct st as [h|]; destruct act;
    compute_handler; rewrite ?disarm_only; reflexivity.
Qed.

Lemma keeps_on_force_commit : keeps timer_ok on_force_commit.
Proof.
  intros c Hc. unfold timer_ok in Hc. unfold on_force_commit.
  destruct c as [sid pid mode gs tr act st ws tm nt d]; cbn in Hc. subst tm.
  compute_handler.
  destruct gs as [s|]; [|destruct st; reflexivity].
  destruct st as [h|]; destruct act; destruct ws;
    compute_handler; rewrite ?disarm_only; reflexivity.
Qed.

Lemma keeps_timer h : keeps timer_ok (handle (TimerFires h)).
Proof.
  intros c Hc. unfold timer_ok in Hc. unfold handle.
  destruct c as [sid pid mode gs tr act st ws tm nt d]; cbn in Hc. subst tm.
  compute_handler.
  destruct st as [h'|]; [|reflexivity]. cbn [armed existsb orb].
  destruct (Nat.eqb h h') eqn:E; [|reflexivity].
  apply Nat.eqb_eq in E. subst h'.
  destruct gs as [s|]; destruct act; compute_handler;
    rewrite ?disarm_only; reflexivity.
Qed.

Lemma keeps_handle (i : input) : keeps timer_ok (handle i).
Proof.
  destruct i; unfold handle.
  - untouched. apply steady_send; reflexivity.
  - untouched. apply steady_on_init; intros; reflexivity.
  - apply keeps_on_audio_chunk.
  - apply keeps_on_force_commit.
  - untouched. apply steady_ret.
  - untouched. apply steady_send; reflexivity.
  - apply keeps_timer.
  - untouched. apply steady_onTranscript; intros; reflexivity.
  - destruct done.
    + unfold onAudioChunk. cbn [negb].
      apply keeps_bind; [untouched; apply steady_send; reflexivity|]. intros ?.
      apply keeps_bind; [untouched; apply steady_send; reflexivity|]. intros ?.
      apply keeps_bind;
        [untouched; apply steady_saveTurnAndDispatchEvents; intros; reflexivity|].
      intros ?.
      apply keeps_bind;
        [untouched; apply steady_assign; intros; reflexivity|]. intros ?.
      apply keeps_bind;
        [untouched; apply steady_assign; intros; reflexivity|]. intros ?.
      apply keeps_clearSilenceTimer.
    + untouched. apply steady_onAudioChunk_partial; reflexivity.
  - untouched. apply steady_onTextResponse; intros; reflexivity.
  - untouched. apply steady_onError; reflexivity.
  - untouched. apply steady_assign; intros; reflexivity.
  - unfold on_close.
    apply keeps_bind; [untouched; apply steady_assign; intros; reflexivity|].
    intros ?. apply keeps_bind; [apply keeps_clearSilenceTimer|]. intros ?.
    untouched. apply steady_bind; [apply steady_get|]. intro c1.
    destruct (geminiSession c1); [|apply steady_ret].
    apply steady_bind; [apply steady_tell; reflexivity|].
    intros ?. apply steady_assign; intros; reflexivity.
  - untouched. apply steady_ret.
Qed.

Lemma timer_ok_exec (ins : list input) : forall c, timer_ok c -> timer_ok (exec c ins).
Proof.
  induction ins as [|i ins IH]; intros c Hc; [exact Hc|].
  cbn [exec]. apply IH. rewrite step_handle. apply keeps_handle. exact Hc.
Qed.

(** X4.  At any point of any run of a connection, the runtime holds no timer
    but the one stored in [silenceTimer]; a timer that was cancelled or
    replaced therefore never fires: its firing changes nothing and sends
    nothing. *)
Theorem cancelled_timer_never_fires
    (d : Db.t) (ins : list input) (h : Timer) :
  let c := exec (connected d) ins in
  timers c = match silenceTimer c with Some h' => [h'] | None => [] end
  /\ (silenceTimer c <> Some h -> step c (TimerFires h) = (c, [])).
Proof.
  intro c. assert (Hok : timer_ok c) by (apply timer_ok_exec; reflexivity).
  split; [exact Hok|]. intro Hne.
  unfold step, handle, bind, get. rewrite Hok.
  destruct (silenceTimer c) as [h'|]; [|reflexivity].
  cbn [armed existsb orb]. destruct (Nat.eqb h h') eqn:E; [|reflexivity].
  apply Nat.eqb_eq in E. congruence.
Qed.


End Timers.

Section Windows.
Import WsHandler.













End Windows.

Section BeforeInit.
Import WsHandler.

Lemma idle_steady {A} (m : M A) :
  steady geminiSession provider_of m -> idle_without_session m.
Proof. intros H c Hc. destruct (H c) as [Hf Hg]. split; [congruence | exact Hg]. Qed.

Ltac compute_idle :=
  cbv [bind get put tell ret throw clearSilenceTimer armSilenceTimer onSilence
       set_silenceTimer set_isActivityActive set_wsOpen set_geminiSession
       send state_of out_of fst snd];
  cbn [sessionId personaId ttsMode geminiSession currentUserTranscript
       isActivityActive silenceTimer wsOpen timers nextTimer db].

Lemma idle_handle (i : input) : opens i = false -> idle_without_session (handle i).
Proof.
  intro Hi. destruct i; unfold handle.
  - apply idle_steady, steady_send; reflexivity.
  - destruct connect as [s|r]; [discriminate|].
    intros c Hc. unfold on_init. rewrite bind_run.
    cbn [get result_of state_of out_of fst snd app]. rewrite Hc.
    apply (@idle_steady unit); [|exact Hc].
    apply steady_bind; [apply steady_ret|]. intros ?.
    apply steady_bind; [apply steady_assign; intros; reflexivity|]. intros ?.
    apply steady_bind; [apply steady_assign; intros; reflexivity|]. intros ?.
    apply steady_bind; [apply steady_sql; intros; reflexivity|]. intros ?.
    apply steady_send; reflexivity.
  - intros c Hc. unfold on_audio_chunk, bind, get. rewrite Hc. auto.
  - intros c Hc. unfold on_force_commit, bind, get. rewrite Hc. auto.
  - apply idle_steady, steady_ret.
  - apply idle_steady, steady_send; reflexivity.
  - intros c Hc. destruct c as [sid pid mode gs tr act st ws tm nt d].
    cbn in Hc. subst gs. compute_idle.
    destruct (armed h tm); compute_idle; auto.
  - apply idle_steady, steady_onTranscript; intros; reflexivity.
  - destruct done; [|apply idle_steady, steady_onAudioChunk_partial; reflexivity].
    apply idle_steady. unfold onAudioChunk. cbn [negb].
    apply steady_bind; [apply steady_send; reflexivity|]. intros ?.
    apply steady_bind; [apply steady_send; reflexivity|]. intros ?.
    apply steady_bind;
      [apply steady_saveTurnAndDispatchEvents; intros; reflexivity|]. intros ?.
    apply steady_bind; [apply steady_assign; intros; reflexivity|]. intros ?.
    apply steady_bind; [apply steady_assign; intros; reflexivity|]. intros ?.
    apply steady_clearSilenceTimer. intros; reflexivity.
  - apply idle_steady, steady_onTextResponse; intros; reflexivity.
  - apply idle_steady, steady_onError; reflexivity.
  - intros c Hc. split; reflexivity.
  - intros c Hc. destruct c as [sid pid mode gs tr act st ws tm nt d].
    cbn in Hc. subst gs. unfold on_close. compute_idle.
    destruct st; compute_idle; auto.
  - apply idle_steady, steady_ret.
Qed.

(** X7.  While no provider session is held and no [init] succeeds in opening
    one, nothing is sent to a provider: no signal, no frame, no close; and
    no session appears. *)
Theorem nothing_sent_without_session (c : conn) (ins : list input) :
  geminiSession c = None ->
  Forall (fun i => opens i = false) ins ->
  flat_map provider_of (effects (run c ins)) = []
  /\ geminiSession (exec c ins) = None.
Proof.
  revert c. induction ins as [|i ins IH]; intros c Hc Hins; [auto|].
  inversion Hins as [|? ? Hi Hins']; subst.
  cbn [run exec]. rewrite step_handle. cbn [fst effects flat_map snd].
  destruct (@idle_handle i Hi c Hc) as [Hs Hg].
  destruct (IH _ Hs Hins') as [IHg IHs].
  rewrite flat_map_app, Hg. auto.
Qed.

Lemma nothing_sent_without_session_witness :
  flat_map provider_of
    (effects (run (connected Db.empty)
                [MsgAudioChunk Scenario.loud_frame; MsgForceCommit; WsClose])) = []
  /\ geminiSession
       (exec (connected Db.empty)
          [MsgAudioChunk Scenario.loud_frame; MsgForceCommit; WsClose]) = None.
Proof.
  apply (@nothing_sent_without_session (connected Db.empty)
           [MsgAudioChunk Scenario.loud_frame; MsgForceCommit; WsClose]).
  - reflexivity.
  - repeat constructor.
Defined.

End BeforeInit.

Section Completion.
Import WsHandler.
















End Completion.

(** ** More on the engine and the agent trigger *)

Section Registry.
Import JS Events.
Local Open Scope Z_scope.




End Registry.

(** ** More on quiz generation *)

Section Generation.
Import JS Gemini.

Lemma trimStart_fence (body : str) :
  trimStart (body ++ fence) = trimStart body ++ fence.
Proof.
  induction body as [|c body IH]; [reflexivity|].
  cbn [app trimStart]. destruct (is_space c); [exact IH | reflexivity].
Qed.

Lemma trimStart_plain (body : str) : Calls.plain body = true -> Calls.plain (trimStart body) = true.
Proof.
  induction body as [|c body IH]; intro H; [reflexivity|].
  cbn [trimStart]. destruct (is_space c); [|exact H].
  apply IH. cbn in H. apply andb_prop in H. apply H.
Qed.

Lemma trimStart_idem (body : str) : trimStart (trimStart body) = trimStart body.
Proof.
  induction body as [|c body IH]; [reflexivity|].
  cbn [trimStart]. destruct (is_space c) eqn:E; [exact IH|].
  cbn [trimStart]. rewrite E. reflexivity.
Qed.

Lemma plain_not_closed (c : N) (rest : str) :
  (c =? 96)%N = false -> closes_here (c :: rest) = false.
Proof.
  intro H. unfold closes_here.
  change fence with (96%N :: [96; 96]%N). cbn [strip_prefix].
  rewrite N.eqb_sym, H. reflexivity.
Qed.

Lemma strip_close_plain (body : str) :
  Calls.plain body = true ->
  strip_close_fence (body ++ fence) = body /\ strip_close_fence body = body.
Proof.
  induction body as [|c body IH]; intro H; [split; reflexivity|].
  cbn in H. apply andb_prop in H. destruct H as [Hc Hb].
  apply negb_true_iff in Hc. destruct (IH Hb) as [IH1 IH2].
  cbn [app strip_close_fence]. rewrite !plain_not_closed by exact Hc.
  rewrite IH1, IH2. split; reflexivity.
Qed.

Lemma strip_open_plain (body : str) :
  Calls.plain body = true -> strip_open_fence body = body.
Proof.
  intro H. unfold strip_open_fence, fence.
  destruct body as [|c body]; [reflexivity|].
  cbn in H. apply andb_prop in H. destruct H as [Hc _].
  apply negb_true_iff in Hc.
  change (lit "```") with (96%N :: [96; 96]%N). cbn [strip_prefix].
  rewrite N.eqb_sym, Hc. reflexivity.
Qed.

(** X11.  The cleaning of the model's answer: a body without backquotes that is
    wrapped in a fence tagged [json] is recovered, trimmed; the same body
    without a fence is only trimmed.  So both answers parse alike. *)
Theorem clean_recovers_fenced_body (body : str) :
  Calls.plain body = true ->
  clean (fence ++ lit "json" ++ body ++ fence) = trim body
  /\ clean body = trim body.
Proof.
  intro H. unfold clean. split.
  - assert (Ho : strip_open_fence (fence ++ lit "json" ++ body ++ fence)
                 = trimStart body ++ fence).
    { unfold strip_open_fence, fence. cbn -[trimStart app].
      change (trimStart (body ++ fence) = trimStart body ++ fence).
      apply trimStart_fence. }
    rewrite Ho.
    destruct (strip_close_plain (trimStart body) (trimStart_plain body H)) as [Hc _].
    rewrite Hc. unfold trim. rewrite trimStart_idem. reflexivity.
  - rewrite (strip_open_plain body H).
    destruct (strip_close_plain body H) as [_ Hc]. rewrite Hc. reflexivity.
Qed.

Lemma clean_recovers_fenced_body_witness :
  clean (fence ++ lit "json" ++ lit " [1, 2] " ++ fence) = lit "[1, 2]"
  /\ clean (lit " [1, 2] ") = lit "[1, 2]".
Proof. exact (@clean_recovers_fenced_body (lit " [1, 2] ") eq_refl). Defined.

(** X12.  The history is given newest first, and the prompt is cut after the
    twelve oldest messages: when at least twelve older messages follow,
    the newer ones in front have no influence on the quiz. *)
Theorem generateQuiz_ignores_newest
    (ai : GenAI) (newer older : list Types.Message) :
  (Config.PROMPT_HISTORY_LIMIT <= length older)%nat ->
  generateQuiz ai (newer ++ older) = generateQuiz ai older.
Proof.
  intro H. unfold generateQuiz, conversationText, slice_to.
  rewrite rev_app_distr, firstn_app, length_rev.
  replace (Config.PROMPT_HISTORY_LIMIT - length older)%nat with 0%nat by lia.
  cbn [firstn]. rewrite app_nil_r. reflexivity.
Qed.

Lemma generateQuiz_ignores_newest_witness :
  generateQuiz Scenario.quizmaster (Scenario.newer_exchange ++ Scenario.twelve_older)
  = generateQuiz Scenario.quizmaster Scenario.twelve_older.
Proof.
  apply (@generateQuiz_ignores_newest Scenario.quizmaster
           Scenario.newer_exchange Scenario.twelve_older).
  cbn. unfold Config.PROMPT_HISTORY_LIMIT. lia.
Defined.

End Generation.

(** ** More on the energy detector *)

Section EnergyBounds.
Import WsHandler AudioSpec.
Local Open Scope Z_scope.

Lemma samples_odd_tail (b : Byte.byte) : forall buf,
  Nat.even (length buf) = true -> samples (buf ++ [b]) = samples buf.
Proof.
  fix IH 1. intros [|lo [|hi rest]] H; [reflexivity | discriminate |].
  cbn [app samples]. f_equal. apply IH. exact H.
Qed.

(** X13.  A last byte that completes no sample is ignored. *)
Theorem trailing_byte_ignored (buf : Buffer) (b : Byte.byte) :
  Nat.even (length buf) = true -> calcPCMRMS (buf ++ [b]) = calcPCMRMS buf.
Proof.
  intro H. rewrite !calcPCMRMS_exact, (samples_odd_tail b buf H).
  assert (Hd : Nat.div (length (buf ++ [b])) 2 = Nat.div (length buf) 2).
  { rewrite <- !samples_length, (samples_odd_tail b buf H). reflexivity. }
  rewrite Hd. reflexivity.
Qed.

Lemma trailing_byte_ignored_witness :
  calcPCMRMS (Scenario.loud_frame ++ [Byte.xff]) = calcPCMRMS Scenario.loud_frame.
Proof. exact (@trailing_byte_ignored Scenario.loud_frame Byte.xff eq_refl). Defined.

Lemma int16_range (u : Z) : 0 <= u < 65536 -> -32768 <= int16 u <= 32767.
Proof. intro H. unfold int16. destruct (u <? 32768) eqn:E; lia. Qed.

Lemma samples_squares : forall buf,
  sum_of_squares (samples buf) <= 32768 * 32768 * Z.of_nat (length (samples buf)).
Proof.
  fix IH 1. intros [|lo [|hi rest]]; [cbn; lia | cbn; lia |].
  cbn [samples sum_of_squares fold_right length].
  pose proof (byte_range lo) as Hlo. pose proof (byte_range hi) as Hhi.
  assert (Hr : -32768 <= int16 (Z.of_N (Byte.to_N lo) + 256 * Z.of_N (Byte.to_N hi))
               <= 32767) by (apply int16_range; lia).
  specialize (IH rest). unfold sum_of_squares in IH.
  set (x := int16 _) in *. nia.
Qed.

Lemma value_is_rms (buf : Buffer) :
  value (if Nat.eqb (Nat.div (length buf) 2) 0 then Zero
         else Root (sum_of_squares (samples buf)) (Z.of_nat (Nat.div (length buf) 2)))
  = rms (samples buf).
Proof.
  rewrite <- (samples_length buf).
  destruct (samples buf) as [|x xs]; [reflexivity|].
  cbn [length Nat.eqb]. unfold value, rms. rewrite INR_IZR_INZ. reflexivity.
Qed.

(** X14.  The test [energy > SPEECH_THRESHOLD] is the comparison of the true
    root-mean-square of the samples with 400, and the energy of a frame is
    never above 32768, the magnitude of the most negative sample. *)
Theorem speech_test_exact (buf : Buffer) :
  exists e, calcPCMRMS buf = Some e
            /\ (exceeds e SPEECH_THRESHOLD = true
                <-> (IZR SPEECH_THRESHOLD < rms (samples buf))%R)
            /\ (rms (samples buf) <= 32768)%R.
Proof.
  eexists. split; [apply calcPCMRMS_exact|]. split.
  - rewrite <- value_is_rms. apply (exceeds_threshold buf). apply calcPCMRMS_exact.
  - pose proof (samples_squares buf) as Hsq.
    pose proof (sum_of_squares_nonneg (samples buf)) as Hnn.
    destruct (samples buf) as [|x xs] eqn:E; [cbn; lra|].
    unfold rms. rewrite INR_IZR_INZ.
    set (n := Z.of_nat (length (x :: xs))) in *.
    assert (Hn : 0 < n) by (unfold n; cbn [length]; lia).
    assert (Hn' : (0 < IZR n)%R) by (apply IZR_lt; exact Hn).
    rewrite <- (sqrt_square 32768) by lra.
    apply sqrt_le_1_alt.
    apply Rmult_le_reg_r with (IZR n); [exact Hn'|].
    unfold Rdiv. rewrite Rmult_assoc, Rinv_l, Rmult_1_r by lra.
    rewrite <- !mult_IZR. apply IZR_le. exact Hsq.
Qed.

End EnergyBounds.

(** ** When a quiz is sent *)

Section Quizzes.
Import WsHandler.
Local Open Scope Z_scope.

Lemma due_steady {A} (m : M A) : steady quizzes_saved quiz_of m -> quiz_if_due m.
Proof. intros H c. left. apply H. Qed.

Lemma due_bind {A B} (m : M A) (k : A -> M B) :
  quiz_if_due m -> (forall a, quiz_if_due (k a)) -> quiz_if_due (bind m k).
Proof.
  intros Hm Hk c. rewrite bind_run.
  destruct (Hm c) as [[Hf Hg] | [ctx [Hin Hdue]]].
  - destruct (result_of (m c)) as [a|]; cbn [state_of out_of fst snd];
      [|left; auto].
    destruct (Hk a (state_of (m c))) as [[Hf' Hg'] | [ctx [Hin Hdue]]].
    + left. rewrite flat_map_app, Hg, Hg', Hf', Hf. auto.
    + right. exists ctx. split; [|exact Hdue].
      unfold contexts in *. rewrite flat_map_app. apply in_or_app. auto.
  - right. exists ctx. split; [|exact Hdue].
    destruct (result_of (m c)) as [a|]; cbn [out_of fst snd]; [|exact Hin].
    unfold contexts in *. rewrite flat_map_app. apply in_or_app. auto.
Qed.

(** The plain pieces of the handlers store and send no quiz. *)
Ltac plain_sql :=
  apply steady_sql; intros ? ? E;
  unfold Db.addMessage, Db.createSession in E;
  destruct (Db.has_session _ _); try discriminate;
  injection E as <-; reflexivity.

Ltac quizless :=
  repeat first
    [ apply steady_ret | apply steady_throw | apply steady_get
    | apply steady_send_msg; reflexivity
    | apply steady_tell; reflexivity
    | apply steady_assign; [reflexivity | intros; reflexivity]
    | plain_sql
    | apply steady_bind; [|intros ?]
    | match goal with
      | |- steady _ _ (match ?x with _ => _ end) => destruct x
      end ].

Lemma rule_fired_due (ai : Gemini.GenAI) (ctx : Events.TurnContext) :
  Events.fired ctx (Events.QuizRuleTrigger ai) = [] \/ quiz_due ctx.
Proof.
  unfold Events.fired. cbn [Events.onTurn Events.QuizRuleTrigger].
  unfold Events.QuizRule_onTurn.
  destruct ((Events.messageCount ctx <=? 0) || _) eqn:G; [left; reflexivity|].
  right. apply rule_gate. exact G.
Qed.

Lemma due_saveTurnAndDispatchEvents aiMessage env :
  quiz_if_due (saveTurnAndDispatchEvents aiMessage env).
Proof.
  unfold saveTurnAndDispatchEvents.
  apply due_bind; [apply due_steady, steady_get|]. intro c.
  destruct (sessionId c) as [[|x sid]|]; try (apply due_steady, steady_ret).
  destruct (currentUserTranscript c) as [|u us]; try (apply due_steady, steady_ret).
  apply due_bind; [apply due_steady; plain_sql|]. intros ?.
  apply due_bind; [apply due_steady; plain_sql|]. intros ?.
  apply due_bind; [apply due_steady, steady_get|]. intro c1.
  match goal with |- quiz_if_due (tell (ProcessTurn ?ctx) ;; _) => set (turn := ctx) end.
  destruct (rule_fired_due (ai env) turn) as [Hnone | Hdue].
  - apply due_steady. apply steady_bind; [apply steady_tell; reflexivity|].
    intros ?. rewrite processTurn_fired.
    cbn [eventEngine Events.register Events.new_EventEngine Events.triggers
         app flat_map].
    rewrite Hnone. apply steady_ret.
  - intro c2. right. exists turn. split; [|exact Hdue].
    rewrite bind_run. cbn [tell result_of state_of out_of fst snd app contexts
                           flat_map context_of]. left. reflexivity.
Qed.

Lemma due_handle (i : input) : quiz_if_due (handle i).
Proof.
  destruct i; unfold handle.
  - apply due_steady. unfold send. quizless.
  - apply due_steady. unfold on_init. quizless.
  - apply due_steady, steady_on_audio_chunk; intros; reflexivity.
  - apply due_steady. unfold on_force_commit, clearSilenceTimer. quizless.
  - apply due_steady. quizless.
  - apply due_steady. quizless.
  - apply due_steady. unfold onSilence. quizless.
  - apply due_steady. unfold onTranscript. quizless.
  - destruct done; [|apply due_steady; unfold onAudioChunk; cbn [negb]; quizless].
    unfold onAudioChunk. cbn [negb].
    apply due_bind; [apply due_steady; quizless|]. intros ?.
    apply due_bind; [apply due_steady; quizless|]. intros ?.
    apply due_bind; [apply due_saveTurnAndDispatchEvents|]. intros ?.
    apply due_steady. unfold clearSilenceTimer. quizless.
  - unfold onTextResponse.
    apply due_bind; [apply due_steady; quizless|]. intros ?.
    apply due_bind; [apply due_steady; quizless|]. intros ?.
    apply due_bind; [apply due_steady; quizless|]. intros ?.
    apply due_bind; [apply due_steady; quizless|]. intros ?.
    apply due_bind; [apply due_saveTurnAndDispatchEvents|]. intros ?.
    apply due_steady. quizless.
  - apply due_steady. destruct mode; unfold onError_live, onError_text; quizless.
  - apply due_steady. unfold onClose. quizless.
  - apply due_steady. unfold on_close, clearSilenceTimer. quizless.
  - apply due_steady. quizless.
Qed.

(** X15.  A step of the connection sends a quiz to the client, or stores one,
    only if in that step the event engine was given a turn whose
    user-message count is a positive multiple of the interval 5. *)
Theorem quiz_only_when_due (c : conn) (i : input) :
  (quizzes_sent (snd (step c i)) = []
   /\ quizzes_saved (fst (step c i)) = quizzes_saved c)
  \/ exists ctx,
       In ctx (contexts (snd (step c i)))
       /\ 0 < Events.messageCount ctx
       /\ (5 | Events.messageCount ctx).
Proof.
  rewrite step_handle. cbn [fst snd].
  destruct (due_handle i c) as [[Hf Hg] | [ctx [Hin Hdue]]];
    [left; split; [exact Hg | exact Hf] | right; exists ctx; split; [exact Hin | exact Hdue]].
Qed.

End Quizzes.
